(** * gwu: a generic web utility, and its poem example

    A shallow embedding of [gwu/gwu.go] (the request pipeline) and of
    [examples/poem/poem.go] (the in-memory poem store and its controllers),
    followed by the properties of both.

    Conventions of the embedding.
    - A Go [error] is represented by the text its [Error()] method returns;
      the nil error is [None].
    - Code that mutates something (the response writer, the store, the log,
      the random source) is written in state-passing style.
    - The collaborators outside the repository (net/http's response writer
      and [http.Error], encoding/json, log/slog, math/rand) are modelled by
      their documented contract, in the modules [http] and [json] and as
      parameters. *)

From stdpp Require Import gmap strings list fin_maps pretty.
From Stdlib Require Import ZArith.

Set Default Proof Using "Type".

(** ** Go strings and errors *)

Definition error := string.

(** The line feed that [fmt.Fprintln] and [json.Encoder] append. *)
Definition LF : string := String (Ascii.ascii_of_nat 10) EmptyString.

(** [errors.New] *)
Definition errors_New (text : string) : error := text.

(** Go's zero value of a type ([var x T]). *)
Class GoZero (A : Type) := zero_value : A.
#[global] Hint Mode GoZero ! : typeclass_instances.

#[global] Instance string_zero : GoZero string := EmptyString.
#[global] Instance list_zero {A} : GoZero (list A) := [].

(** ** net/http: the response writer *)

Module http.

Definition StatusOK : Z := 200.
Definition StatusCreated : Z := 201.
Definition StatusBadRequest : Z := 400.
Definition StatusNotFound : Z := 404.
Definition StatusInternalServerError : Z := 500.

Definition Header := gmap string (list string).

(** The state behind an [http.ResponseWriter], as net/http's server keeps
    it for one request.
    [handlerHeader] is the map [w.Header()] returns; [informational] are
    the 1xx responses sent so far, each with the headers that went with
    it; [sent] is the final status line and the header snapshot that went
    out with it (the first final [WriteHeader] wins, and later changes of
    the header map reach nobody); [body] is what the handler wrote after
    it and the writer took; [superfluous] are the codes of the
    [WriteHeader] calls that came after the final status line and were
    dropped; [panicked] is the panic that ended the handler, if any (the
    server then sends nothing of a response not yet begun).

    Scope: the writer of a request other than HEAD (to a HEAD request the
    server sends the status line and headers and withholds the body the
    handler wrote); a [Content-Length] the handler declared is not checked
    against the body; hijacked and broken connections are left out. *)
Record ResponseWriter := mkResponseWriter {
  handlerHeader : Header;
  informational : list (Z * Header);
  sent : option (Z * Header);
  body : string;
  superfluous : list Z;
  panicked : option string
}.

(** What a handler receives from the server. *)
Definition NewResponse : ResponseWriter :=
  {| handlerHeader := ∅; informational := []; sent := None; body := "";
     superfluous := []; panicked := None |}.

Definition Header_Set (key value : string) (w : ResponseWriter) : ResponseWriter :=
  {| handlerHeader := <[key := [value]]> (handlerHeader w);
     informational := informational w; sent := sent w; body := body w;
     superfluous := superfluous w; panicked := panicked w |}.

Definition Header_Del (key : string) (w : ResponseWriter) : ResponseWriter :=
  {| handlerHeader := delete key (handlerHeader w);
     informational := informational w; sent := sent w; body := body w;
     superfluous := superfluous w; panicked := panicked w |}.

(** [checkWriteHeaderCode]: a status code has three digits. *)
Definition validCode (code : Z) : bool :=
  negb ((code <? 100)%Z || (999 <? code)%Z).

(** The 1xx codes [WriteHeader] sends at once, as informational responses;
    101 Switching Protocols goes the way of the final codes. *)
Definition informationalCode (code : Z) : bool :=
  (100 <=? code)%Z && (code <=? 199)%Z && negb (code =? 101)%Z.

(** [bodyAllowedForStatus] *)
Definition bodyAllowedForStatus (status : Z) : bool :=
  if (100 <=? status)%Z && (status <=? 199)%Z then false
  else if (status =? 204)%Z then false
  else if (status =? 304)%Z then false
  else true.

(** [http.ErrBodyNotAllowed] *)
Definition ErrBodyNotAllowed : error :=
  errors_New "http: request method or response status code does not allow body".

(** [w.WriteHeader(code)]. After the final status line the call is dropped,
    whatever the code. Before it, a code outside 100..999 panics, an
    informational code is sent at once and leaves the final status line
    open, and any other code is the final status line. A handler that has
    panicked makes no further call: on its writer nothing happens. *)
Definition WriteHeader (code : Z) (w : ResponseWriter) : ResponseWriter :=
  match panicked w with
  | Some _ => w
  | None =>
      match sent w with
      | Some _ =>
          {| handlerHeader := handlerHeader w; informational := informational w;
             sent := sent w; body := body w;
             superfluous := superfluous w ++ [code]; panicked := None |}
      | None =>
          if negb (validCode code) then
            {| handlerHeader := handlerHeader w; informational := informational w;
               sent := None; body := body w; superfluous := superfluous w;
               panicked := Some ("invalid WriteHeader code " +:+ pretty code) |}
          else if informationalCode code then
            {| handlerHeader := handlerHeader w;
               informational :=
                 informational w
                 ++ [(code, delete "Transfer-Encoding"
                              (delete "Content-Length" (handlerHeader w)))];
               sent := None; body := body w; superfluous := superfluous w;
               panicked := None |}
          else
            {| handlerHeader := handlerHeader w; informational := informational w;
               sent := Some (code, handlerHeader w);
               body := body w; superfluous := superfluous w; panicked := None |}
      end
  end.

(** [w.Write(data)]: the first write sends [200 OK] when no final status
    line went out; empty data is always taken; other data is taken when
    the status allows a body, and refused with [ErrBodyNotAllowed]
    otherwise. *)
Definition Write (data : string) (w : ResponseWriter) : ResponseWriter * option error :=
  match panicked w with
  | Some _ => (w, None)
  | None =>
      let w1 := match sent w with Some _ => w | None => WriteHeader StatusOK w end in
      match data with
      | EmptyString => (w1, None)
      | String _ _ =>
          match sent w1 with
          | Some (status, _) =>
              if bodyAllowedForStatus status then
                ({| handlerHeader := handlerHeader w1;
                    informational := informational w1; sent := sent w1;
                    body := body w1 +:+ data; superfluous := superfluous w1;
                    panicked := None |}, None)
              else (w1, Some ErrBodyNotAllowed)
          | None =>
              (* [bodyAllowed] panics without a status; [WriteHeader(200)]
                 above has set one *)
              ({| handlerHeader := handlerHeader w1;
                  informational := informational w1; sent := None;
                  body := body w1; superfluous := superfluous w1;
                  panicked := Some "" |}, None)
          end
      end
  end.

(** [http.Error(w, error, code)]; the error of [fmt.Fprintln] is dropped. *)
Definition Error (w : ResponseWriter) (msg : string) (code : Z) : ResponseWriter :=
  let w := Header_Del "Content-Length" w in
  let w := Header_Set "Content-Type" "text/plain; charset=utf-8" w in
  let w := Header_Set "X-Content-Type-Options" "nosniff" w in
  let w := WriteHeader code w in
  (Write (msg +:+ LF) w).1.

(** The final status line the client received, if any. *)
Definition status (w : ResponseWriter) : option Z := fst <$> sent w.

(** A header of the response the client received. *)
Definition sentHeader (w : ResponseWriter) (key : string) : option (list string) :=
  sent w ≫= λ p, snd p !! key.

(** [*http.Request], as far as the pipeline reads it. *)
Record Request {Ctx : Type} := mkRequest {
  Body : string;
  PathValues : gmap string string;
  Context : Ctx
}.
Arguments Request : clear implicits.

Definition PathValue {Ctx} (r : Request Ctx) (key : string) : string :=
  default "" (PathValues r !! key).

End http.

(** ** encoding/json *)

Module json.

(** [json.Marshal] at type [A]: the encoded text, or the error. *)
Class Marshaler (A : Type) := Marshal : A → error + string.
#[global] Hint Mode Marshaler ! : typeclass_instances.

(** [json.Decoder.Decode] at type [A], reading a request body: the value
    decoded so far and the error, if any. *)
Class Unmarshaler (A : Type) := Decode : string → A * option error.
#[global] Hint Mode Unmarshaler ! : typeclass_instances.

(** [json.NewEncoder(w).Encode(v)]: the value is marshalled first, and
    only a successful encoding is written, followed by a line feed; the
    error is that of the encoding or, else, that of the write. *)
Definition Encoder_Encode {A} {encoder : Marshaler A} (w : http.ResponseWriter) (v : A)
    : http.ResponseWriter * option error :=
  match Marshal v with
  | inl err => (w, Some err)
  | inr text => http.Write (text +:+ LF) w
  end.

End json.

(** ** package gwu *)

Module gwu.

Definition ErrDecodeRequest : error := errors_New "failed to decode request".
Definition ErrEncodeResponse : error := errors_New "failed to encode response".

Section Pipeline.
(** [World] is everything a decoder, an [Exec] function or a logger can
    read and change (for the example: the store, the log, the random
    source). [Any] stands for Go's [any] in the loggers' arguments. *)
Context {World Any Ctx : Type}.

Record Logger := mkLogger {
  Debug : string → list Any → World → World;
  Info : string → list Any → World → World
}.

(** [slog.New(slog.NewTextHandler(os.Stderr, nil))] *)
Variable slog_default : Logger.

(** [fmt.Errorf("%w: %w", a, b).Error()] *)
Definition wrap2 (a b : error) : string := a +:+ ": " +:+ b.

Definition IntoJSON {Out} {encoder : json.Marshaler Out}
    (w : http.ResponseWriter) (log : Logger) (data : Out) (statusCode : Z)
    (σ : World) : http.ResponseWriter * World :=
  let w := http.Header_Set "Content-Type" "application/json" w in
  let w := http.WriteHeader statusCode w in
  match http.panicked w with
  | Some _ => (w, σ)  (* the panic of [WriteHeader] ends the call *)
  | None =>
      match json.Encoder_Encode w data with
      | (w, Some err) =>
          let σ := Info log (wrap2 ErrEncodeResponse err) [] σ in
          (http.Error w ErrEncodeResponse http.StatusInternalServerError, σ)
      | (w, None) => (w, σ)
      end
  end.

(** The field is [Log] in the source; [Log] here is the option function
    below. A nil logger is [None]. *)
Record HandleOpts := mkHandleOpts { Log_ : option Logger }.

(** [opts.Log.Debug(msg, args...)] as the [Exec] functions call it.
    [Handle] never hands out options without a logger (see [buildOpts]);
    on the zero options the call is left without effect here. *)
Definition opts_Debug (opts : HandleOpts) (msg : string) (args : list Any)
    (σ : World) : World :=
  match Log_ opts with
  | Some l => Debug l msg args σ
  | None => σ
  end.

Definition HandleOptsFunc := HandleOpts → HandleOpts.

(** The logger given may be nil ([None]). *)
Definition Log (log : option Logger) : HandleOptsFunc :=
  λ _, {| Log_ := log |}.

(** Decoders and [Exec] functions are Go functions: they may read and
    change the world. The validation function of [ValIn] is taken as pure. *)
Definition CnIn (In : Type) :=
  http.Request Ctx → HandleOpts → World → (In * option error) * World.

Definition Exec (In Out : Type) :=
  Ctx → In → HandleOpts → World → (Out * Z * option error) * World.

Definition JSON {In} {decoder : json.Unmarshaler In} : CnIn In :=
  λ r _ σ,
    let '(inp, err) := json.Decode (http.Body r) in
    match err with
    | Some _ => ((inp, Some ErrDecodeRequest), σ)
    | None => ((inp, None), σ)
    end.

Definition PathVal (key : string) : CnIn string :=
  λ r _ σ, ((http.PathValue r key, None), σ).

Definition Empty `{!GoZero Any} : CnIn Any :=
  λ _ _ σ, ((zero_value, None), σ).

Definition ValIn {In Out} `{!GoZero Out}
    (fn : Exec In Out) (fnVal : In → option error) : Exec In Out :=
  let out : Out := zero_value in
  λ ctx inp opts σ,
    match fnVal inp with
    | Some err => ((out, http.StatusBadRequest, Some err), σ)
    | None => fn ctx inp opts σ
    end.

Definition Handler :=
  http.ResponseWriter → http.Request Ctx → World → http.ResponseWriter * World.

(** The options a handler built by [Handle] works with: the option
    functions applied in order to the zero [HandleOpts], then the
    default logger where none was set. *)
Definition buildOpts (optFns : list HandleOptsFunc) : Logger * HandleOpts :=
  let opts := foldl (λ o f, f o) {| Log_ := None |} optFns in
  match Log_ opts with
  | Some l => (l, opts)
  | None => (slog_default, {| Log_ := Some slog_default |})
  end.

(** The options a handler built from [optFns] passes to its decoder and
    to its [Exec] function. *)
Definition handlerOpts (optFns : list HandleOptsFunc) : HandleOpts :=
  (buildOpts optFns).2.

Definition Handle {In Out} {encoder : json.Marshaler Out}
    (inFn : CnIn In) (fn : Exec In Out) (optFns : list HandleOptsFunc) : Handler :=
  let '(log, opts) := buildOpts optFns in
  λ w r σ,
    let '((inp, err), σ) := inFn r opts σ in
    match err with
    | Some e => (http.Error w e http.StatusBadRequest, σ)
    | None =>
        let '((out, code, err), σ) := fn (http.Context r) inp opts σ in
        match err with
        | Some e => (http.Error w e code, σ)
        | None => IntoJSON w log out code σ
        end
    end.

End Pipeline.

Arguments Logger : clear implicits.
Arguments HandleOpts : clear implicits.
Arguments HandleOptsFunc : clear implicits.
Arguments CnIn : clear implicits.
Arguments Exec : clear implicits.
Arguments Handler : clear implicits.

End gwu.

(** ** examples/poem *)

Module poem.

Definition IDCharset : string :=
  "abcdefghijklmnopqrstuvwxyzABCDEFGHIJKLMNOPQRSTUVWXYZ0123456789".
Definition IDLength : nat := 10.

Definition ErrNotFound : error := errors_New "poem(s) do(es) not exist".
Definition ErrAuthorNotFound : error := errors_New "the requested author does not exist".
Definition ErrCouldNotCreate : error := errors_New "internal error: could not create".
Definition errNotFound : error := errors_New "not found - internally".
Definition errDuplicate : error := errors_New "duplicate poem - internally".

(** [type ID string] *)
Abbreviation ID := string (only parsing).

Record Poem := mkPoem {
  id : ID;
  Name : string;
  Author : string;
  Text : string
}.

#[global] Instance Poem_zero : GoZero Poem :=
  {| id := ""; Name := ""; Author := ""; Text := "" |}.

#[global] Instance Poem_eq_dec : EqDecision Poem.
Proof. solve_decision. Defined.

(** The store's lock is left out: the methods are modelled one call at a
    time, each running from its [Lock] to its [Unlock]. *)
Record Store := mkStore { poems : gmap ID Poem }.

(** Go's [any], for the values the example hands to its loggers and for
    the input of the route without input. *)
Inductive any :=
| AnyNil
| AnyString (s : string)
| AnyError (e : error)
| AnyPoem (p : Poem).

#[global] Instance any_zero : GoZero any := AnyNil.

Inductive Level := LevelDebug | LevelInfo.

Record LogRecord := mkLogRecord {
  level : Level;
  attrs : list (string * string);
  message : string;
  args : list any
}.

(** math/rand's global source: the numbers it will hand out, and how many
    were taken. *)
Record Source := mkSource { draws : nat → nat; cursor : nat }.

Record World := mkWorld {
  store : Store;
  random : Source;
  logs : list LogRecord
}.

Definition set_store (s : Store) (σ : World) : World :=
  {| store := s; random := random σ; logs := logs σ |}.

Definition emit (rec : LogRecord) (σ : World) : World :=
  {| store := store σ; random := random σ; logs := logs σ ++ [rec] |}.

(** [rand.Intn(n)] *)
Definition rand_Intn (n : nat) (σ : World) : nat * World :=
  let src := random σ in
  (draws src (cursor src) `mod` n,
   {| store := store σ;
      random := {| draws := draws src; cursor := S (cursor src) |};
      logs := logs σ |}).

(** [IDCharset[i]] *)
Definition charAt (s : string) (i : nat) : Ascii.ascii :=
  default Ascii.zero (String.get i s).

(** The loop of [NewID] over the [n] bytes still to fill. *)
Fixpoint NewID_fill (n : nat) (σ : World) : string * World :=
  match n with
  | O => (EmptyString, σ)
  | S n' =>
      let '(k, σ) := rand_Intn (String.length IDCharset) σ in
      let '(rest, σ) := NewID_fill n' σ in
      (String (charAt IDCharset k) rest, σ)
  end.

Definition NewID (σ : World) : ID * World := NewID_fill IDLength σ.

Definition ValidateToCreate (p : Poem) : option error :=
  let reqErr (key : string) : error := key +:+ " required to create poem" in
  if decide (Name p = "") then Some (reqErr "name")
  else if decide (Author p = "") then Some (reqErr "author")
  else if decide (Text p = "") then Some (reqErr "text")
  else None.

(** [s.poems[key] = p] *)
Definition Store_set (key : ID) (p : Poem) (s : Store) : Store :=
  {| poems := <[key := p]> (poems s) |}.

Definition mock (s : Store) : Store :=
  let s := Store_set "1234567890"
    {| id := "1234567890"; Name := "The Raven"; Author := "Edgar Allan Poe";
       Text := "Once upon a midnight dreary, while I pondered, weak and weary,
Over many a quaint and curious volume of forgotten lore—
While I nodded, nearly napping, suddenly there came a tapping,
As of some one gently rapping, rapping at my chamber door.
“’Tis some visitor,” I muttered, “tapping at my chamber door—
Only this and nothing more.”" |} s in
  let s := Store_set "abc123defx"
    {| id := "abc123defx"; Name := "The Road Not Taken"; Author := "Robert Frost";
       Text := "Two roads diverged in a yellow wood,
And sorry I could not travel both
And be one traveler, long I stood
And looked down one as far as I could
To where it bent in the undergrowth;" |} s in
  let s := Store_set "abcdefghij"
    {| id := "abcdefghi"; Name := "Der Erlkönig"; Author := "Goethe";
       Text := "Wer reitet so spät durch Nacht und Wind?
Es ist der Vater mit seinem Kind;
Er hat den Knaben wohl in dem Arm,
Er faßt ihn sicher, er hält ihn warm." |} s in
  Store_set "isjzB57elf"
    {| id := "isjzB57elf"; Name := "Der Zauberlehrling"; Author := "Goethe";
       Text := "Hat der alte Hexenmeister
Sich doch einmal wegbegeben!
Und nun sollen seine Geister
Auch nach meinem Willen leben." |} s.

Definition NewStore : Store := mock {| poems := ∅ |}.

Definition Store_Poem (s : Store) (key : ID) : Poem * option error :=
  match poems s !! key with
  | None => (zero_value, Some errNotFound)
  | Some p => (p, None)
  end.

Definition Store_Add (s : Store) (p : Poem) : option error * Store :=
  match poems s !! id p with
  | Some _ => (Some errDuplicate, s)
  | None => (None, Store_set (id p) p s)
  end.

Section Range.
(** [for _, poem := range s.poems]: every entry of the map once, in an
    order Go does not specify. *)
Variable range : gmap ID Poem → list (ID * Poem).

Definition Store_PoemsByAuthor (s : Store) (author : string) : list Poem :=
  foldl (λ acc kv, if decide (Author kv.2 = author) then acc ++ [kv.2] else acc)
        [] (range (poems s)).

Definition Store_All (s : Store) : list Poem :=
  foldl (λ acc kv, acc ++ [kv.2]) [] (range (poems s)).
End Range.

(** [IDIn] *)
Definition IDIn {Ctx} (key : string) : gwu.CnIn World any Ctx ID :=
  λ r _ σ, ((http.PathValue r key, None), σ).

(** A [*slog.Logger] that keeps the records at [minLevel] and above and
    carries the attributes given to [With]. *)
Definition slog_Logger (minLevel : Level) (with_attrs : list (string * string))
    : gwu.Logger World any :=
  {| gwu.Debug := λ msg a σ,
       match minLevel with
       | LevelDebug =>
           emit {| level := LevelDebug; attrs := with_attrs; message := msg; args := a |} σ
       | LevelInfo => σ
       end;
     gwu.Info := λ msg a σ,
       emit {| level := LevelInfo; attrs := with_attrs; message := msg; args := a |} σ |}.

(** The logger [gwu.Handle] falls back to: text records on the standard
    error stream, at the default level. *)
Definition slog_default : gwu.Logger World any := slog_Logger LevelInfo [].

Section Controller.
Variable range : gmap ID Poem → list (ID * Poem).
Context {Ctx : Type}.

(** Methods of [PoemController]; the store it points to lives in the
    [World]. *)

Definition Create : gwu.Exec World any Ctx Poem Poem :=
  λ _ poem opts σ,
    let '(newID, σ) := NewID σ in
    let poem := {| id := newID; Name := Name poem; Author := Author poem;
                   Text := Text poem |} in
    let '(err, s) := Store_Add (store σ) poem in
    let σ := set_store s σ in
    match err with
    | Some e =>
        let σ := gwu.opts_Debug opts "could not create poem"
                   [AnyString "error"; AnyError e; AnyString "poem"; AnyPoem poem] σ in
        ((poem, http.StatusInternalServerError, Some ErrCouldNotCreate), σ)
    | None => ((poem, http.StatusCreated, None), σ)
    end.

Definition ByID : gwu.Exec World any Ctx ID Poem :=
  λ _ key opts σ,
    let '(poem, err) := Store_Poem (store σ) key in
    match err with
    | Some _ =>
        let σ := gwu.opts_Debug opts "requested non-existent poem"
                   [AnyString "id"; AnyString key] σ in
        ((poem, http.StatusNotFound, Some ErrNotFound), σ)
    | None => ((poem, http.StatusOK, None), σ)
    end.

Definition All : gwu.Exec World any Ctx any (list Poem) :=
  λ _ _ opts σ,
    let poems := Store_All range (store σ) in
    ((poems, http.StatusOK, None), σ).

Definition ByAuthor : gwu.Exec World any Ctx string (list Poem) :=
  λ _ author opts σ,
    let poems := Store_PoemsByAuthor range (store σ) author in
    match poems with
    | [] =>
        let σ := gwu.opts_Debug opts "no poems found for author"
                   [AnyString "author"; AnyString author] σ in
        (([], http.StatusNotFound, Some ErrAuthorNotFound), σ)
    | _ => ((poems, http.StatusOK, None), σ)
    end.

(** encoding/json on the example's types. Decoding a body can fail;
    encoding a [Poem] (four strings) or a slice of them cannot, so the
    encoders are total. *)
Context {decoder : json.Unmarshaler Poem}.
Variable encode_Poem : Poem → string.
Variable encode_Poems : list Poem → string.

#[local] Instance Poem_Marshaler : json.Marshaler Poem :=
  λ p, inr (encode_Poem p).
#[local] Instance Poems_Marshaler : json.Marshaler (list Poem) :=
  λ ps, inr (encode_Poems ps).

(** The routes [main] registers on its mux, each with its handler. *)
Inductive Route :=
| GET_poem_id
| GET_poems
| POST_poem
| GET_poems_author.

Definition route_log (method route : string) : gwu.HandleOptsFunc World any :=
  gwu.Log (Some (slog_Logger LevelDebug [("method", method); ("route", route)])).

Definition mux (rt : Route) : gwu.Handler World Ctx :=
  match rt with
  | GET_poem_id =>
      gwu.Handle slog_default (IDIn "id") ByID
        [route_log "GET" "/poem/{id}"]
  | GET_poems =>
      gwu.Handle slog_default gwu.Empty All
        [route_log "GET" "/poems"]
  | POST_poem =>
      gwu.Handle slog_default gwu.JSON (gwu.ValIn Create ValidateToCreate)
        [route_log "POST" "/poem"]
  | GET_poems_author =>
      gwu.Handle slog_default (gwu.PathVal "author") ByAuthor
        [route_log "GET" "/poems/author/{author}"]
  end.

(** The server answering one request: a new response writer goes
    through the handler of the route. *)
Definition serve (rt : Route) (r : http.Request Ctx) (σ : World)
    : http.ResponseWriter * World :=
  mux rt http.NewResponse r σ.

(** The world after a sequence of requests, served one after the other. *)
Fixpoint serve_all (reqs : list (Route * http.Request Ctx)) (σ : World) : World :=
  match reqs with
  | [] => σ
  | (rt, r) :: rest => serve_all rest (serve rt r σ).2
  end.

End Controller.

End poem.

(** * Vocabulary of the statements *)

(** The headers [http.Error] leaves on a new response. *)
Definition errorHeader : http.Header :=
  <["X-Content-Type-Options" := ["nosniff"]]>
    (<["Content-Type" := ["text/plain; charset=utf-8"]]> (delete "Content-Length" ∅)).

(** The status codes with which a response is complete and may carry a
    body: three digits, not 1xx, not 204 No Content, not 304 Not Modified. *)
Definition finalCodeWithBody (code : Z) : Prop :=
  (200 ≤ code ≤ 999)%Z ∧ code ≠ 204%Z ∧ code ≠ 304%Z.

(** Proves [finalCodeWithBody] of a status code that is given. *)
Ltac final_code :=
  unfold finalCodeWithBody, http.StatusOK, http.StatusCreated, http.StatusBadRequest,
    http.StatusNotFound, http.StatusInternalServerError; lia.

(** A JSON response on a new writer. *)
Definition jsonResponse (code : Z) (text : string) : http.ResponseWriter :=
  {| http.handlerHeader := {["Content-Type" := ["application/json"]]};
     http.informational := [];
     http.sent := Some (code, {["Content-Type" := ["application/json"]]});
     http.body := text +:+ LF;
     http.superfluous := [];
     http.panicked := None |}.

(** The debug record a route's logger emits. *)
Definition debugRecord (method route msg : string) (a : list poem.any) : poem.LogRecord :=
  {| poem.level := poem.LevelDebug;
     poem.attrs := [("method", method); ("route", route)];
     poem.message := msg; poem.args := a |}.

(** Every record sits under its own identifier. *)
Definition keyed_by_id (s : poem.Store) : Prop :=
  ∀ k p, poem.poems s !! k = Some p → poem.id p = k.




(** * Sample data

    Concrete requests, worlds and JSON texts on which the statements below
    are evaluated. *)

Module sample.

(** The double quote of the JSON texts. *)
Definition DQ : string := String (Ascii.ascii_of_nat 34) EmptyString.

Definition quoted (s : string) : string := DQ +:+ s +:+ DQ.

Definition member (key value : string) : string :=
  quoted key +:+ ":" +:+ quoted value.

(** The JSON text of a poem whose strings need no escaping. *)
Definition encode_Poem (p : poem.Poem) : string :=
  "{" +:+ member "id" (poem.id p) +:+ "," +:+ member "name" (poem.Name p) +:+ ","
  +:+ member "author" (poem.Author p) +:+ "," +:+ member "text" (poem.Text p) +:+ "}".

Definition encode_Poems (ps : list poem.Poem) : string :=
  "[" +:+ String.concat "," (encode_Poem <$> ps) +:+ "]".

Definition annabel : poem.Poem :=
  {| poem.id := ""; poem.Name := "Annabel Lee"; poem.Author := "Edgar Allan Poe";
     poem.Text := "It was many and many a year ago" |}.

(** A well-formed body with the three required fields. *)
Definition body_annabel : string :=
  "{" +:+ member "name" "Annabel Lee" +:+ "," +:+ member "author" "Edgar Allan Poe"
  +:+ "," +:+ member "text" "It was many and many a year ago" +:+ "}".

(** A well-formed body without the author. *)
Definition body_no_author : string :=
  "{" +:+ member "name" "Annabel Lee" +:+ ","
  +:+ member "text" "It was many and many a year ago" +:+ "}".

(** A body that stops in the middle of a member. *)
Definition body_truncated : string := "{" +:+ quoted "name" +:+ ":".

(** What [json.Decoder.Decode] makes of these bodies; any other body is
    taken as cut short. *)
Definition decode_Poem : json.Unmarshaler poem.Poem :=
  λ body,
    if decide (body = body_annabel) then (annabel, None)
    else if decide (body = body_no_author) then
      ({| poem.id := ""; poem.Name := "Annabel Lee"; poem.Author := "";
          poem.Text := "It was many and many a year ago" |}, None)
    else (zero_value, Some "unexpected EOF").

(** The world at start-up, with the random source about to hand out
    [first], [first + 1], ... *)
Definition world (first : nat) : poem.World :=
  {| poem.store := poem.NewStore;
     poem.random := {| poem.draws := λ n, n; poem.cursor := first |};
     poem.logs := [] |}.

Definition post (body : string) : http.Request unit :=
  {| http.Body := body; http.PathValues := ∅; http.Context := tt |}.

Definition get (key value : string) : http.Request unit :=
  {| http.Body := ""; http.PathValues := {[key := value]}; http.Context := tt |}.

(** The example's server, ranging over the store in the order of
    [map_to_list]. *)
Definition serve : poem.Route → http.Request unit → poem.World
    → http.ResponseWriter * poem.World :=
  poem.serve map_to_list (decoder := decode_Poem) encode_Poem encode_Poems.

(** An output encoding/json has no encoding for: a Go channel. *)
Inductive Chan := MakeChan.

#[global] Instance Chan_Marshaler : json.Marshaler Chan :=
  λ _, inl "json: unsupported type: chan int".

(** An [Exec] function that succeeds with such an output. *)
Definition chanExec : gwu.Exec poem.World poem.any unit poem.any Chan :=
  λ _ _ _ σ, ((MakeChan, http.StatusOK, None), σ).

Definition chanHandler : gwu.Handler poem.World unit :=
  gwu.Handle poem.slog_default gwu.Empty chanExec [].

End sample.

(** * More sample data *)

Module sample_id.

(** A well-formed body that brings an identifier of its own. *)
Definition body_with_id : string :=
  "{" +:+ sample.member "id" "1234567890" +:+ "," +:+ sample.member "name" "Annabel Lee"
  +:+ "," +:+ sample.member "author" "Edgar Allan Poe"
  +:+ "," +:+ sample.member "text" "It was many and many a year ago" +:+ "}".

(** [sample.decode_Poem], and this body too. *)
Definition decode_Poem : json.Unmarshaler poem.Poem :=
  λ body,
    if decide (body = body_with_id) then
      ({| poem.id := "1234567890"; poem.Name := "Annabel Lee";
          poem.Author := "Edgar Allan Poe";
          poem.Text := "It was many and many a year ago" |}, None)
    else sample.decode_Poem body.

Definition serve : poem.Route → http.Request unit → poem.World
    → http.ResponseWriter * poem.World :=
  poem.serve map_to_list (decoder := decode_Poem) sample.encode_Poem sample.encode_Poems.

End sample_id.

(** * Sample handlers for the status codes *)

Module sample_codes.

(** A business-logic function that fails with the given status code. *)
Definition failWith (code : Z) : gwu.Exec poem.World poem.any unit poem.any poem.Poem :=
  λ _ _ _ σ, ((zero_value, code, Some "try again later"), σ).

Definition failHandler (code : Z) : gwu.Handler poem.World unit :=
  gwu.Handle poem.slog_default gwu.Empty (failWith code)
    (encoder := poem.Poem_Marshaler sample.encode_Poem) [].

(** A business-logic function that succeeds with the given status code. *)
Definition succeedWith (code : Z)
    : gwu.Exec poem.World poem.any unit poem.any poem.Poem :=
  λ _ _ _ σ, ((sample.annabel, code, None), σ).

Definition successHandler (code : Z) : gwu.Handler poem.World unit :=
  gwu.Handle poem.slog_default gwu.Empty (succeedWith code)
    (encoder := poem.Poem_Marshaler sample.encode_Poem) [].

End sample_codes.

(** * Properties of the request pipeline *)

(** ** The response writer *)

Lemma finalCodeWithBody_codes (code : Z) :
  finalCodeWithBody code →
  http.validCode code = true
  ∧ http.informationalCode code = false
  ∧ http.bodyAllowedForStatus code = true.
Proof.
  intros (Hrange & H204 & H304).
  unfold http.validCode, http.informationalCode, http.bodyAllowedForStatus.
  destruct (Z.ltb_spec code 100), (Z.ltb_spec 999 code),
    (Z.leb_spec 100 code), (Z.leb_spec code 199),
    (Z.eqb_spec code 101), (Z.eqb_spec code 204), (Z.eqb_spec code 304);
    simpl; try lia; done.
Qed.

(** A line is never empty. *)
Lemma line_nonempty (msg : string) : ∃ a rest, msg +:+ LF = String a rest.
Proof. destruct msg; simpl; eauto. Qed.

(** The final status line on a writer that has none yet. *)
Lemma WriteHeader_final (w : http.ResponseWriter) (code : Z) :
  http.panicked w = None → http.sent w = None →
  http.validCode code = true → http.informationalCode code = false →
  http.WriteHeader code w =
  {| http.handlerHeader := http.handlerHeader w;
     http.informational := http.informational w;
     http.sent := Some (code, http.handlerHeader w);
     http.body := http.body w;
     http.superfluous := http.superfluous w;
     http.panicked := None |}.
Proof.
  intros Hp Hs Hv Hi. unfold http.WriteHeader. by rewrite Hp, Hs, Hv, Hi.
Qed.

(** A line written after a status line that allows a body. *)
Lemma Write_line (w : http.ResponseWriter) (msg : string) (code : Z) (h : http.Header) :
  http.panicked w = None → http.sent w = Some (code, h) →
  http.bodyAllowedForStatus code = true →
  http.Write (msg +:+ LF) w =
  ({| http.handlerHeader := http.handlerHeader w;
      http.informational := http.informational w;
      http.sent := Some (code, h);
      http.body := http.body w +:+ (msg +:+ LF);
      http.superfluous := http.superfluous w;
      http.panicked := None |}, None).
Proof.
  intros Hp Hs Hb. unfold http.Write. rewrite Hp, Hs.
  destruct (line_nonempty msg) as (a & rest & ->). cbv zeta. by rewrite Hs, Hb.
Qed.

Lemma Error_NewResponse (msg : string) (code : Z) :
  finalCodeWithBody code →
  http.Error http.NewResponse msg code =
  {| http.handlerHeader := errorHeader;
     http.informational := [];
     http.sent := Some (code, errorHeader);
     http.body := msg +:+ LF;
     http.superfluous := [];
     http.panicked := None |}.
Proof.
  intros Hc. destruct (finalCodeWithBody_codes code Hc) as (Hv & Hi & Hb).
  unfold http.Error.
  rewrite WriteHeader_final by done.
  by erewrite Write_line.
Qed.

Lemma Error_NewResponse_status (msg : string) (code : Z) :
  finalCodeWithBody code →
  http.status (http.Error http.NewResponse msg code) = Some code.
Proof. intros Hc. by rewrite Error_NewResponse. Qed.

Lemma Error_NewResponse_content_type (msg : string) (code : Z) :
  finalCodeWithBody code →
  http.sentHeader (http.Error http.NewResponse msg code) "Content-Type"
  = Some ["text/plain; charset=utf-8"].
Proof. intros Hc. by rewrite Error_NewResponse. Qed.

(** Once the final status line is out, [WriteHeader] changes neither it nor
    the headers that went with it, whatever the code. *)
Lemma WriteHeader_sent (w : http.ResponseWriter) (code : Z) (p : Z * http.Header) :
  http.panicked w = None →
  http.sent w = Some p →
  http.sent (http.WriteHeader code w) = Some p
  ∧ http.superfluous (http.WriteHeader code w) = http.superfluous w ++ [code].
Proof. intros Hp Hs. unfold http.WriteHeader. by rewrite Hp, Hs. Qed.

Lemma Error_sent (w : http.ResponseWriter) (msg : string) (code st : Z) (h : http.Header) :
  http.panicked w = None →
  http.sent w = Some (st, h) →
  http.bodyAllowedForStatus st = true →
  http.sent (http.Error w msg code) = Some (st, h)
  ∧ http.body (http.Error w msg code) = http.body w +:+ (msg +:+ LF)
  ∧ http.superfluous (http.Error w msg code) = http.superfluous w ++ [code].
Proof.
  intros Hp Hs Hb. unfold http.Error. cbv zeta.
  set (w1 := http.WriteHeader code _).
  assert (http.panicked w1 = None ∧ http.sent w1 = Some (st, h)
          ∧ http.body w1 = http.body w
          ∧ http.superfluous w1 = http.superfluous w ++ [code]) as (Hp1 & Hs1 & Hb1 & Hf1).
  { subst w1. unfold http.WriteHeader; simpl. by rewrite Hp, Hs. }
  rewrite (Write_line w1 msg st h Hp1 Hs1 Hb); simpl. by rewrite Hb1, Hf1.
Qed.

(** ** [ValIn], [JSON] and [Handle] *)

Section PipelineProperties.
Context {World Any Ctx : Type}.
Variable slog_default : gwu.Logger World Any.

#[local] Abbreviation handlerOpts := (gwu.handlerOpts slog_default).

Lemma buildOpts_has_logger (optFns : list (gwu.HandleOptsFunc World Any)) :
  gwu.Log_ (handlerOpts optFns) = Some (gwu.buildOpts slog_default optFns).1.
Proof.
  unfold gwu.handlerOpts, gwu.buildOpts.
  by case_match.
Qed.

(** The three ways through a handler, one equation each. *)
Lemma Handle_unfold {In Out} {encoder : json.Marshaler Out}
    (inFn : gwu.CnIn World Any Ctx In) (fn : gwu.Exec World Any Ctx In Out)
    (optFns : list (gwu.HandleOptsFunc World Any))
    (w : http.ResponseWriter) (r : http.Request Ctx) (σ : World) :
  gwu.Handle slog_default inFn fn optFns w r σ =
  match inFn r (handlerOpts optFns) σ with
  | ((_, Some e), σ1) => (http.Error w e http.StatusBadRequest, σ1)
  | ((inp, None), σ1) =>
      match fn (http.Context r) inp (handlerOpts optFns) σ1 with
      | ((_, code, Some e), σ2) => (http.Error w e code, σ2)
      | ((out, code, None), σ2) =>
          gwu.IntoJSON w (gwu.buildOpts slog_default optFns).1 out code σ2
      end
  end.
Proof.
  unfold gwu.Handle, gwu.handlerOpts.
  destruct (gwu.buildOpts slog_default optFns) as [log opts]; simpl.
  destruct (inFn r opts σ) as [[inp [e|]] σ1]; [done|].
  by destruct (fn (http.Context r) inp opts σ1) as [[[out code] [e|]] σ2].
Qed.

(** What [IntoJSON] leaves on a new response when the encoding succeeds and
    the status code allows a body. *)
Lemma IntoJSON_ok {Out} {encoder : json.Marshaler Out}
    (log : gwu.Logger World Any) (data : Out) (code : Z) (σ : World) (text : string) :
  finalCodeWithBody code →
  json.Marshal data = inr text →
  gwu.IntoJSON http.NewResponse log data code σ = (jsonResponse code text, σ).
Proof.
  intros Hc Hm. destruct (finalCodeWithBody_codes code Hc) as (Hv & Hi & Hb).
  unfold gwu.IntoJSON, json.Encoder_Encode. cbv zeta.
  rewrite WriteHeader_final by done. cbn [http.panicked]. rewrite Hm.
  by erewrite Write_line.
Qed.

(** What it leaves when the encoding fails: the status line and the JSON
    content type of the first [WriteHeader] stay, the [500] of [http.Error]
    is dropped as superfluous, and the body is the encode-error line. *)
Lemma IntoJSON_encode_failure {Out} {encoder : json.Marshaler Out}
    (log : gwu.Logger World Any) (data : Out) (code : Z) (σ : World) (err : error) :
  finalCodeWithBody code →
  json.Marshal data = inl err →
  gwu.IntoJSON http.NewResponse log data code σ =
  ({| http.handlerHeader := errorHeader;
      http.informational := [];
      http.sent := Some (code, {["Content-Type" := ["application/json"]]});
      http.body := gwu.ErrEncodeResponse +:+ LF;
      http.superfluous := [http.StatusInternalServerError];
      http.panicked := None |},
   gwu.Info log ("failed to encode response: " +:+ err) [] σ).
Proof.
  intros Hc Hm. destruct (finalCodeWithBody_codes code Hc) as (Hv & Hi & Hb).
  unfold gwu.IntoJSON, json.Encoder_Encode. cbv zeta.
  rewrite WriteHeader_final by done. cbn [http.panicked]. rewrite Hm.
  f_equal. unfold http.Error, http.Write, http.WriteHeader. simpl.
  by rewrite Hb.
Qed.

(** C5. A handler wrapped by [ValIn]: when the validation function returns
    an error, the result is the zero output, status 400 and that error, and
    the world (the store in it) is exactly the one before the call; the
    wrapped function [fn] is not run, so any other function in its place
    gives the same. When validation succeeds, the result is exactly that
    of [fn]. *)
Theorem ValIn_validates_before_exec {In Out} `{!GoZero Out}
    (fn : gwu.Exec World Any Ctx In Out) (fnVal : In → option error)
    (ctx : Ctx) (inp : In) (opts : gwu.HandleOpts World Any) (σ : World) :
  (∀ err, fnVal inp = Some err →
     gwu.ValIn fn fnVal ctx inp opts σ
     = ((zero_value, 400%Z, Some err), σ)
     ∧ ∀ fn' : gwu.Exec World Any Ctx In Out,
         gwu.ValIn fn' fnVal ctx inp opts σ = gwu.ValIn fn fnVal ctx inp opts σ)
  ∧ (fnVal inp = None →
     gwu.ValIn fn fnVal ctx inp opts σ = fn ctx inp opts σ).
Proof.
  unfold gwu.ValIn. split.
  - intros err ->. done.
  - intros ->. done.
Qed.

(** C8. When the decoder returns an error, the handler answers a new
    response with [http.Error]: status 400 and, as body, the error's text
    (one line). Nothing else is written, and the result is the same for
    every business-logic function: the world is the one the decoder left. *)
Theorem Handle_decoder_error {In Out} {encoder : json.Marshaler Out}
    (inFn : gwu.CnIn World Any Ctx In) (fn : gwu.Exec World Any Ctx In Out)
    (optFns : list (gwu.HandleOptsFunc World Any))
    (r : http.Request Ctx) (σ σ1 : World) (inp : In) (e : error) :
  inFn r (handlerOpts optFns) σ = ((inp, Some e), σ1) →
  gwu.Handle slog_default inFn fn optFns http.NewResponse r σ
  = (http.Error http.NewResponse e http.StatusBadRequest, σ1)
  ∧ http.status (gwu.Handle slog_default inFn fn optFns http.NewResponse r σ).1
    = Some 400%Z
  ∧ http.body (gwu.Handle slog_default inFn fn optFns http.NewResponse r σ).1
    = e +:+ LF
  ∧ http.superfluous (gwu.Handle slog_default inFn fn optFns http.NewResponse r σ).1
    = [].
Proof.
  intros Hin. rewrite Handle_unfold, Hin. cbn [fst].
  rewrite Error_NewResponse by final_code. done.
Qed.

(** C9 (amended). When the decoder succeeds and the business-logic
    function returns an error with a status code that completes a response
    and allows a body (200 to 999, neither 204 nor 304), the handler
    answers a new response with [http.Error]: that status code, the
    plain-text content type and, as body, the error's text (one line). No
    JSON output is written, whatever the encoder of the output type is. *)
Theorem Handle_exec_error {In Out} {encoder : json.Marshaler Out}
    (inFn : gwu.CnIn World Any Ctx In) (fn : gwu.Exec World Any Ctx In Out)
    (optFns : list (gwu.HandleOptsFunc World Any))
    (r : http.Request Ctx) (σ σ1 σ2 : World) (inp : In) (out : Out)
    (code : Z) (e : error) :
  inFn r (handlerOpts optFns) σ = ((inp, None), σ1) →
  fn (http.Context r) inp (handlerOpts optFns) σ1 = ((out, code, Some e), σ2) →
  (200 ≤ code ≤ 999)%Z → code ≠ 204%Z → code ≠ 304%Z →
  gwu.Handle slog_default inFn fn optFns http.NewResponse r σ
  = (http.Error http.NewResponse e code, σ2)
  ∧ http.status (gwu.Handle slog_default inFn fn optFns http.NewResponse r σ).1
    = Some code
  ∧ http.body (gwu.Handle slog_default inFn fn optFns http.NewResponse r σ).1
    = e +:+ LF
  ∧ http.sentHeader (gwu.Handle slog_default inFn fn optFns http.NewResponse r σ).1
      "Content-Type" = Some ["text/plain; charset=utf-8"]
  ∧ http.superfluous (gwu.Handle slog_default inFn fn optFns http.NewResponse r σ).1
    = [].
Proof.
  intros Hin Hfn Hrange H204 H304. rewrite Handle_unfold, Hin, Hfn. cbn [fst].
  rewrite Error_NewResponse by done. done.
Qed.

(** C10. Whatever error the JSON library reports on a request body, the
    [JSON] decoder returns the one sentinel "failed to decode request", does
    not touch the world, and the handler built on it answers status 400
    with that constant text (one line) as body: the library's own error
    text appears nowhere. *)
Theorem JSON_decode_error_is_sentinel {In Out}
    {decoder : json.Unmarshaler In} {encoder : json.Marshaler Out}
    (fn : gwu.Exec World Any Ctx In Out)
    (optFns : list (gwu.HandleOptsFunc World Any))
    (r : http.Request Ctx) (opts : gwu.HandleOpts World Any) (σ : World)
    (underlying : error) :
  (json.Decode (A:=In) (http.Body r)).2 = Some underlying →
  (gwu.JSON (In:=In) r opts σ).1.2 = Some "failed to decode request"
  ∧ (gwu.JSON (In:=In) r opts σ).2 = σ
  ∧ http.status (gwu.Handle slog_default gwu.JSON fn optFns http.NewResponse r σ).1
    = Some 400%Z
  ∧ http.body (gwu.Handle slog_default gwu.JSON fn optFns http.NewResponse r σ).1
    = "failed to decode request" +:+ LF
  ∧ (gwu.Handle slog_default gwu.JSON fn optFns http.NewResponse r σ).2 = σ.
Proof.
  intros Hd. rewrite Handle_unfold. unfold gwu.JSON.
  destruct (json.Decode (http.Body r)) as [inp err]. simpl in Hd. subst err.
  cbn [fst snd]. rewrite Error_NewResponse by final_code. done.
Qed.

End PipelineProperties.

(** * Properties of the poem example *)

(** ** The store *)

(** C4. [Add] returns the duplicate error exactly when the record's
    identifier is already a key of the store; then the store is unchanged.
    Otherwise it returns no error, the record is stored under its
    identifier, and every other key keeps what it had. *)
Theorem Store_Add_rejects_duplicates (s : poem.Store) (p : poem.Poem) :
  ((poem.Store_Add s p).1 = Some poem.errDuplicate
     ↔ is_Some (poem.poems s !! poem.id p))
  ∧ (is_Some (poem.poems s !! poem.id p) →
       poem.Store_Add s p = (Some poem.errDuplicate, s))
  ∧ (poem.poems s !! poem.id p = None →
       (poem.Store_Add s p).1 = None
       ∧ poem.poems (poem.Store_Add s p).2 !! poem.id p = Some p
       ∧ ∀ k, k ≠ poem.id p →
           poem.poems (poem.Store_Add s p).2 !! k = poem.poems s !! k).
Proof.
  unfold poem.Store_Add.
  destruct (poem.poems s !! poem.id p) as [q|] eqn:E; simpl.
  - split_and!; [split; eauto | done | done].
  - split_and!.
    + split; [done | by intros [? ?]].
    + by intros [? ?].
    + intros _. split_and!; [done | by rewrite lookup_insert_eq |].
      intros k Hk. by rewrite lookup_insert_ne.
Qed.

(** [Add] keeps it. *)
Lemma Store_Add_keyed_by_id (s : poem.Store) (p : poem.Poem) :
  keyed_by_id s → keyed_by_id (poem.Store_Add s p).2.
Proof.
  intros Hs k q. unfold poem.Store_Add.
  destruct (poem.poems s !! poem.id p) eqn:E; simpl; [apply Hs|].
  rewrite lookup_insert. case_decide; [naive_solver | apply Hs].
Qed.

(** C3. The store [NewStore] builds does not have it: [mock] puts under the
    key "abcdefghij" a record whose identifier field is "abcdefghi". *)
Theorem mock_key_differs_from_id :
  (poem.id <$> poem.poems poem.NewStore !! "abcdefghij") = Some "abcdefghi"
  ∧ poem.poems poem.NewStore !! "abcdefghi" = None.
Proof. split; reflexivity. Qed.

Lemma ValidateToCreate_None (p : poem.Poem) :
  poem.ValidateToCreate p = None
  ↔ poem.Name p ≠ "" ∧ poem.Author p ≠ "" ∧ poem.Text p ≠ "".
Proof.
  unfold poem.ValidateToCreate.
  destruct (decide (poem.Name p = "")); [split; [done | by intros (? & ? & ?)]|].
  destruct (decide (poem.Author p = "")); [split; [done | by intros (? & ? & ?)]|].
  destruct (decide (poem.Text p = "")); [split; [done | by intros (? & ? & ?)]|].
  done.
Qed.

(** ** The controllers behind the routes *)

Section PoemProperties.
Variable range : gmap string poem.Poem → list (string * poem.Poem).
Context {Ctx : Type} {decoder : json.Unmarshaler poem.Poem}.
Variable encode_Poem : poem.Poem → string.
Variable encode_Poems : list poem.Poem → string.

Abbreviation serve := (poem.serve range encode_Poem encode_Poems).

Lemma NewID_fill_frame (n : nat) (σ : poem.World) :
  poem.store (poem.NewID_fill n σ).2 = poem.store σ
  ∧ poem.logs (poem.NewID_fill n σ).2 = poem.logs σ.
Proof.
  revert σ. induction n as [|n IH]; intros σ; [done|].
  cbn [poem.NewID_fill].
  destruct (poem.rand_Intn (String.length poem.IDCharset) σ) as [k σ1] eqn:E1.
  destruct (IH σ1) as [IHs IHl].
  destruct (poem.NewID_fill n σ1) as [rest σ2]. cbn [snd] in *.
  rewrite IHs, IHl. unfold poem.rand_Intn in E1. by injection E1 as _ <-.
Qed.

Lemma NewID_frame (σ : poem.World) :
  poem.store (poem.NewID σ).2 = poem.store σ
  ∧ poem.logs (poem.NewID σ).2 = poem.logs σ.
Proof. apply NewID_fill_frame. Qed.

(** GET /poem/{id}, unfolded. *)
Lemma serve_GET_poem_id (r : http.Request Ctx) (σ : poem.World) :
  serve poem.GET_poem_id r σ =
  match poem.poems (poem.store σ) !! http.PathValue r "id" with
  | None =>
      (http.Error http.NewResponse poem.ErrNotFound http.StatusNotFound,
       poem.emit (debugRecord "GET" "/poem/{id}" "requested non-existent poem"
                    [poem.AnyString "id"; poem.AnyString (http.PathValue r "id")]) σ)
  | Some p => (jsonResponse http.StatusOK (encode_Poem p), σ)
  end.
Proof.
  unfold poem.serve, poem.mux. rewrite Handle_unfold.
  unfold poem.IDIn, poem.ByID, poem.Store_Poem; simpl.
  destruct (poem.poems (poem.store σ) !! http.PathValue r "id") as [p|]; [|done].
  by apply IntoJSON_ok; [final_code|].
Qed.

(** POST /poem, unfolded. *)
Lemma serve_POST_poem (r : http.Request Ctx) (σ : poem.World) :
  serve poem.POST_poem r σ =
  match json.Decode (http.Body r) with
  | (_, Some _) =>
      (http.Error http.NewResponse gwu.ErrDecodeRequest http.StatusBadRequest, σ)
  | (p, None) =>
      match poem.ValidateToCreate p with
      | Some e => (http.Error http.NewResponse e http.StatusBadRequest, σ)
      | None =>
          let created := {| poem.id := (poem.NewID σ).1; poem.Name := poem.Name p;
                            poem.Author := poem.Author p; poem.Text := poem.Text p |} in
          match poem.poems (poem.store σ) !! (poem.NewID σ).1 with
          | Some _ =>
              (http.Error http.NewResponse poem.ErrCouldNotCreate
                 http.StatusInternalServerError,
               poem.emit (debugRecord "POST" "/poem" "could not create poem"
                            [poem.AnyString "error"; poem.AnyError poem.errDuplicate;
                             poem.AnyString "poem"; poem.AnyPoem created])
                         (poem.NewID σ).2)
          | None =>
              (jsonResponse http.StatusCreated (encode_Poem created),
               poem.set_store (poem.Store_set (poem.NewID σ).1 created (poem.store σ))
                              (poem.NewID σ).2)
          end
      end
  end.
Proof.
  unfold poem.serve, poem.mux. rewrite Handle_unfold.
  unfold gwu.JSON, gwu.ValIn.
  destruct (json.Decode (http.Body r)) as [p [e|]]; [done|].
  destruct (poem.ValidateToCreate p) as [e|]; [done|].
  unfold poem.Create.
  pose proof (NewID_frame σ) as [Hst _].
  destruct (poem.NewID σ) as [newID σ1]; simpl in *.
  unfold poem.Store_Add; simpl. rewrite Hst.
  destruct (poem.poems (poem.store σ) !! newID) as [q|]; cbn [fst snd];
    [|by apply IntoJSON_ok; [final_code|]].
  f_equal. unfold poem.set_store. rewrite <- Hst. by destruct σ1.
Qed.

(** GET /poems/author/{author}, unfolded. *)
Lemma serve_GET_poems_author (r : http.Request Ctx) (σ : poem.World) :
  serve poem.GET_poems_author r σ =
  match poem.Store_PoemsByAuthor range (poem.store σ) (http.PathValue r "author") with
  | [] =>
      (http.Error http.NewResponse poem.ErrAuthorNotFound http.StatusNotFound,
       poem.emit (debugRecord "GET" "/poems/author/{author}" "no poems found for author"
                    [poem.AnyString "author";
                     poem.AnyString (http.PathValue r "author")]) σ)
  | p :: ps => (jsonResponse http.StatusOK (encode_Poems (p :: ps)), σ)
  end.
Proof.
  unfold poem.serve, poem.mux. rewrite Handle_unfold.
  unfold gwu.PathVal, poem.ByAuthor; simpl.
  destruct (poem.Store_PoemsByAuthor range (poem.store σ) (http.PathValue r "author"));
    [done|].
  by apply IntoJSON_ok; [final_code|].
Qed.

(** GET /poems, unfolded. *)
Lemma serve_GET_poems (r : http.Request Ctx) (σ : poem.World) :
  serve poem.GET_poems r σ
  = (jsonResponse http.StatusOK (encode_Poems (poem.Store_All range (poem.store σ))), σ).
Proof.
  unfold poem.serve, poem.mux. rewrite Handle_unfold.
  unfold gwu.Empty, poem.All. by apply IntoJSON_ok; [final_code|].
Qed.

(** A body that decodes but fails [ValidateToCreate] is answered with 400
    and the validation error; the world stays as it was: nothing stored, no
    identifier drawn, nothing logged. *)
Lemma POST_poem_invalid (r : http.Request Ctx) (σ : poem.World)
    (p : poem.Poem) (e : error) :
  json.Decode (http.Body r) = (p, None) →
  poem.ValidateToCreate p = Some e →
  serve poem.POST_poem r σ = (http.Error http.NewResponse e 400%Z, σ).
Proof. intros Hdec Hval. by rewrite serve_POST_poem, Hdec, Hval. Qed.

(** A key that appears in the store was drawn for a POST /poem that was
    answered with 201. *)
Lemma serve_adds_only_created (rt : poem.Route) (r : http.Request Ctx)
    (σ : poem.World) (k : string) (p : poem.Poem) :
  poem.poems (poem.store σ) !! k = None →
  poem.poems (poem.store (serve rt r σ).2) !! k = Some p →
  rt = poem.POST_poem
  ∧ http.status (serve rt r σ).1 = Some 201%Z
  ∧ k = (poem.NewID σ).1 ∧ poem.id p = k.
Proof.
  intros Hnone. destruct rt.
  - rewrite serve_GET_poem_id. case_match; cbn [snd poem.emit poem.store]; congruence.
  - rewrite serve_GET_poems. cbn [snd]. congruence.
  - rewrite serve_POST_poem.
    destruct (json.Decode (http.Body r)) as [q [e|]]; [cbn [snd]; congruence|].
    destruct (poem.ValidateToCreate q); [cbn [snd]; congruence|]. cbv zeta.
    pose proof (NewID_frame σ) as [Hst _].
    destruct (poem.poems (poem.store σ) !! (poem.NewID σ).1) eqn:E;
      unfold poem.emit, poem.set_store, poem.Store_set;
      cbn [fst snd poem.store poem.poems].
    + rewrite Hst. congruence.
    + rewrite lookup_insert. case_decide as Hk; [|congruence].
      intros [= <-]. done.
  - rewrite serve_GET_poems_author. case_match; cbn [snd poem.emit poem.store]; congruence.
Qed.

(** No request removes or replaces a record of the store. *)
Lemma serve_keeps_records (rt : poem.Route) (r : http.Request Ctx) (σ : poem.World)
    (k : string) (p : poem.Poem) :
  poem.poems (poem.store σ) !! k = Some p →
  poem.poems (poem.store (serve rt r σ).2) !! k = Some p.
Proof.
  intros Hk. destruct rt.
  - rewrite serve_GET_poem_id. by case_match.
  - by rewrite serve_GET_poems.
  - rewrite serve_POST_poem.
    destruct (json.Decode (http.Body r)) as [q [e|]]; [done|].
    destruct (poem.ValidateToCreate q); [done|].
    pose proof (NewID_frame σ) as [Hst _].
    destruct (poem.poems (poem.store σ) !! (poem.NewID σ).1) eqn:E;
      unfold poem.emit, poem.set_store, poem.Store_set;
      cbn [snd poem.store poem.poems].
    + by rewrite Hst.
    + rewrite lookup_insert_ne; [done|]. intros <-. congruence.
  - rewrite serve_GET_poems_author. by case_match.
Qed.

Lemma serve_all_keeps_records (reqs : list (poem.Route * http.Request Ctx))
    (σ : poem.World) (k : string) (p : poem.Poem) :
  poem.poems (poem.store σ) !! k = Some p →
  poem.poems (poem.store (poem.serve_all range encode_Poem encode_Poems reqs σ)) !! k
  = Some p.
Proof.
  revert σ. induction reqs as [|[rt r] reqs IH]; intros σ Hk; [done|].
  simpl. apply IH. by apply serve_keeps_records.
Qed.

Lemma serve_all_app (pre post : list (poem.Route * http.Request Ctx)) (σ : poem.World) :
  poem.serve_all range encode_Poem encode_Poems (pre ++ post) σ
  = poem.serve_all range encode_Poem encode_Poems post
      (poem.serve_all range encode_Poem encode_Poems pre σ).
Proof.
  revert σ. induction pre as [|[rt r] pre IH]; intros σ; [done|]. simpl. apply IH.
Qed.


(** C2 (amended). A POST /poem request whose body decodes to a record with
    non-empty name, author and text gets an identifier drawn at random.
    When no record is stored under it, the response is 201 with the record
    carrying that identifier, which is then stored under it, every other
    key keeping what it had. When a record is already stored under it, the
    response is 500 with the could-not-create message and the store is
    unchanged. *)
Theorem POST_poem_creates_unless_collision
    (r : http.Request Ctx) (σ : poem.World) (p : poem.Poem) :
  json.Decode (http.Body r) = (p, None) →
  poem.Name p ≠ "" → poem.Author p ≠ "" → poem.Text p ≠ "" →
  let newID := (poem.NewID σ).1 in
  let created := {| poem.id := newID; poem.Name := poem.Name p;
                    poem.Author := poem.Author p; poem.Text := poem.Text p |} in
  let w := (serve poem.POST_poem r σ).1 in
  let σ' := (serve poem.POST_poem r σ).2 in
  (poem.poems (poem.store σ) !! newID = None →
     http.status w = Some 201%Z
     ∧ http.body w = encode_Poem created +:+ LF
     ∧ poem.poems (poem.store σ') !! newID = Some created
     ∧ ∀ k, k ≠ newID →
         poem.poems (poem.store σ') !! k = poem.poems (poem.store σ) !! k)
  ∧ (is_Some (poem.poems (poem.store σ) !! newID) →
     http.status w = Some 500%Z
     ∧ http.body w = "internal error: could not create" +:+ LF
     ∧ poem.store σ' = poem.store σ).
Proof.
  intros Hdec Hn Ha Ht newID created w σ'. subst w σ'.
  rewrite serve_POST_poem, Hdec.
  rewrite (proj2 (ValidateToCreate_None p)) by done.
  pose proof (NewID_frame σ) as [Hst _].
  fold newID. fold created. cbv zeta.
  destruct (poem.poems (poem.store σ) !! newID) as [q|] eqn:E.
  - split; [done|]. intros _. split_and!; [done | done |].
    unfold poem.emit; cbn [snd poem.store]. done.
  - split; [|by intros [? ?]]. intros _.
    unfold poem.set_store, poem.Store_set; cbn [fst snd poem.store poem.poems].
    split_and!; [done | done | by rewrite lookup_insert_eq |].
    intros k Hk. by rewrite lookup_insert_ne.
Qed.

(** A key that the store did not start with, and that no POST /poem
    answered with 201 has drawn, is not in the store. *)
Lemma serve_all_never_created (reqs : list (poem.Route * http.Request Ctx))
    (σ0 : poem.World) (k : string) :
  poem.poems (poem.store σ0) !! k = None →
  (∀ pre rp rest,
     reqs = pre ++ (poem.POST_poem, rp) :: rest →
     http.status
       (serve poem.POST_poem rp
          (poem.serve_all range encode_Poem encode_Poems pre σ0)).1 = Some 201%Z →
     (poem.NewID (poem.serve_all range encode_Poem encode_Poems pre σ0)).1 ≠ k) →
  poem.poems (poem.store (poem.serve_all range encode_Poem encode_Poems reqs σ0)) !! k
  = None.
Proof.
  revert σ0. induction reqs as [|[rt r] reqs IH]; intros σ0 H0 Hno; [done|].
  cbn [poem.serve_all]. apply IH.
  - destruct (poem.poems (poem.store (serve rt r σ0).2) !! k) as [p|] eqn:E; [|done].
    exfalso.
    destruct (serve_adds_only_created _ _ _ _ _ H0 E) as (-> & Hst & Hk & _).
    by eapply (Hno [] r reqs).
  - intros pre rp rest -> Hst. by apply (Hno ((rt, r) :: pre) rp rest).
Qed.

(** C6. GET /poem/{id} on the world reached from [σ0] by any sequence of
    requests. When nothing is stored under the identifier, the response is
    404 with the not-found message; that is the case when the store of
    [σ0] had nothing under it and no POST /poem since was answered with
    201 for it. When a record was under it at any earlier point, the
    response is 200 with exactly that record. In particular the record a
    POST /poem created (name, author and text as posted, the identifier the
    server drew) is what a later GET of that identifier returns. The store
    itself is not changed by the GET. *)
Theorem GET_poem_by_id_round_trip
    (pre post : list (poem.Route * http.Request Ctx)) (σ0 : poem.World)
    (r : http.Request Ctx) :
  let key := http.PathValue r "id" in
  let σ := poem.serve_all range encode_Poem encode_Poems (pre ++ post) σ0 in
  let w := (serve poem.GET_poem_id r σ).1 in
  (poem.poems (poem.store σ) !! key = None →
     http.status w = Some 404%Z
     ∧ http.body w = "poem(s) do(es) not exist" +:+ LF)
  ∧ (poem.poems (poem.store σ0) !! key = None →
     (∀ before rp rest,
        pre ++ post = before ++ (poem.POST_poem, rp) :: rest →
        http.status
          (serve poem.POST_poem rp
             (poem.serve_all range encode_Poem encode_Poems before σ0)).1
        = Some 201%Z →
        (poem.NewID (poem.serve_all range encode_Poem encode_Poems before σ0)).1
        ≠ key) →
     http.status w = Some 404%Z
     ∧ http.body w = "poem(s) do(es) not exist" +:+ LF)
  ∧ (∀ p, poem.poems (poem.store
            (poem.serve_all range encode_Poem encode_Poems pre σ0)) !! key = Some p →
     http.status w = Some 200%Z ∧ http.body w = encode_Poem p +:+ LF)
  ∧ (∀ rp posted rest,
       post = (poem.POST_poem, rp) :: rest →
       json.Decode (http.Body rp) = (posted, None) →
       http.status
         (serve poem.POST_poem rp
            (poem.serve_all range encode_Poem encode_Poems pre σ0)).1 = Some 201%Z →
       key = (poem.NewID (poem.serve_all range encode_Poem encode_Poems pre σ0)).1 →
       http.status w = Some 200%Z
       ∧ http.body w
         = encode_Poem {| poem.id := key; poem.Name := poem.Name posted;
                          poem.Author := poem.Author posted;
                          poem.Text := poem.Text posted |} +:+ LF)
  ∧ poem.store (serve poem.GET_poem_id r σ).2 = poem.store σ.
Proof.
  intros key σ w. subst w.
  assert (Hnow : ∀ p, poem.poems (poem.store σ) !! key = Some p →
            http.status (serve poem.GET_poem_id r σ).1 = Some 200%Z
            ∧ http.body (serve poem.GET_poem_id r σ).1 = encode_Poem p +:+ LF).
  { intros p Hp. rewrite serve_GET_poem_id. fold key. by rewrite Hp. }
  assert (Hnone : poem.poems (poem.store σ) !! key = None →
            http.status (serve poem.GET_poem_id r σ).1 = Some 404%Z
            ∧ http.body (serve poem.GET_poem_id r σ).1
              = "poem(s) do(es) not exist" +:+ LF).
  { intros Hk. rewrite serve_GET_poem_id. fold key. by rewrite Hk. }
  split_and!.
  - done.
  - intros H0 Hno. apply Hnone. subst σ. by apply serve_all_never_created.
  - intros p Hp. apply Hnow. subst σ. rewrite serve_all_app.
    by apply serve_all_keeps_records.
  - intros rp posted rest -> Hdec Hst Hkey. apply Hnow.
    subst σ. rewrite serve_all_app. cbn [poem.serve_all].
    apply serve_all_keeps_records.
    set (σ1 := poem.serve_all range encode_Poem encode_Poems pre σ0) in *.
    revert Hst. rewrite serve_POST_poem, Hdec.
    destruct (poem.ValidateToCreate posted);
      [by rewrite Error_NewResponse by final_code|]. cbv zeta.
    rewrite <- Hkey.
    destruct (poem.poems (poem.store σ1) !! key); [done|]. intros _.
    unfold poem.set_store, poem.Store_set; cbn [snd poem.store poem.poems].
    by rewrite lookup_insert_eq.
  - rewrite serve_GET_poem_id. by case_match.
Qed.

Lemma foldl_by_author (author : string) (l : list (string * poem.Poem))
    (acc : list poem.Poem) :
  foldl (λ acc kv, if decide (poem.Author kv.2 = author) then acc ++ [kv.2] else acc)
        acc l
  = acc ++ filter (λ p, poem.Author p = author) l.*2.
Proof.
  revert acc. induction l as [|[k p] l IH]; intros acc; simpl.
  - by rewrite app_nil_r.
  - rewrite IH, filter_cons. simpl. case_decide; [|done].
    by rewrite <- app_assoc.
Qed.

Lemma PoemsByAuthor_filter (s : poem.Store) (author : string) :
  poem.Store_PoemsByAuthor range s author
  = filter (λ p, poem.Author p = author) (range (poem.poems s)).*2.
Proof. unfold poem.Store_PoemsByAuthor. by rewrite foldl_by_author. Qed.

(** C7. Whatever order the map is ranged over, the list-by-author method
    returns the records whose author field is the given string, each once
    (a permutation of them), and the empty list when there is none; it has
    no error to return. GET /poems/author/{author} answers 404 with the
    author-not-found message when that list is empty, and 200 with that
    list otherwise. *)
Theorem GET_poems_by_author
    (range_perm : ∀ m, range m ≡ₚ map_to_list m)
    (r : http.Request Ctx) (σ : poem.World) :
  let author := http.PathValue r "author" in
  let found := poem.Store_PoemsByAuthor range (poem.store σ) author in
  let w := (serve poem.GET_poems_author r σ).1 in
  found ≡ₚ filter (λ p, poem.Author p = author)
             (map_to_list (poem.poems (poem.store σ))).*2
  ∧ (∀ p, p ∈ found
          ↔ poem.Author p = author ∧ ∃ k, poem.poems (poem.store σ) !! k = Some p)
  ∧ ((∀ k p, poem.poems (poem.store σ) !! k = Some p → poem.Author p ≠ author) →
       found = []
       ∧ http.status w = Some 404%Z
       ∧ http.body w = "the requested author does not exist" +:+ LF)
  ∧ ((∃ k p, poem.poems (poem.store σ) !! k = Some p ∧ poem.Author p = author) →
       http.status w = Some 200%Z
       ∧ http.body w = encode_Poems found +:+ LF)
  ∧ poem.store (serve poem.GET_poems_author r σ).2 = poem.store σ.
Proof.
  intros author found w.
  assert (Hperm : found ≡ₚ filter (λ p, poem.Author p = author)
                    (map_to_list (poem.poems (poem.store σ))).*2).
  { subst found. rewrite PoemsByAuthor_filter. by rewrite range_perm. }
  assert (Hin : ∀ p, p ∈ found
            ↔ poem.Author p = author ∧ ∃ k, poem.poems (poem.store σ) !! k = Some p).
  { intros p. rewrite Hperm, list_elem_of_filter, list_elem_of_fmap.
    split.
    - intros [Ha [[k q] [-> Hkq]]]. split; [done|]. exists k.
      by apply elem_of_map_to_list in Hkq.
    - intros [Ha [k Hk]]. split; [done|]. exists (k, p). split; [done|].
      by apply elem_of_map_to_list. }
  subst w. rewrite serve_GET_poems_author. fold author. fold found.
  split_and!; [done | done | | | by destruct found].
  - intros Hnone. destruct found as [|p ps]; [done|]. exfalso.
    destruct (proj1 (Hin p)) as [Ha [k Hk]]; [by left|]. by eapply Hnone.
  - intros (k & p & Hk & Ha). destruct found as [|q qs]; [|done]. exfalso.
    assert (p ∈ @nil poem.Poem) as Hp by (apply Hin; eauto).
    by apply elem_of_nil in Hp.
Qed.

End PoemProperties.

(** * The statements on the sample data *)

(** C1. A handler whose decoder and [Exec] function succeed (status 200)
    but whose output cannot be encoded: the failure is logged and the
    encode-error line is the body, but the response keeps the status 200
    and the JSON content type that [IntoJSON] sent before encoding; the
    500 that [http.Error] asks for arrives after the status line and is
    dropped. One status line went out. *)
Theorem IntoJSON_encode_failure_keeps_first_status :
  http.status (sample.chanHandler http.NewResponse (sample.post "") (sample.world 0)).1
  = Some 200%Z
  ∧ http.sentHeader
      (sample.chanHandler http.NewResponse (sample.post "") (sample.world 0)).1
      "Content-Type" = Some ["application/json"]
  ∧ http.body (sample.chanHandler http.NewResponse (sample.post "") (sample.world 0)).1
    = "failed to encode response" +:+ LF
  ∧ http.superfluous
      (sample.chanHandler http.NewResponse (sample.post "") (sample.world 0)).1
    = [500%Z]
  ∧ poem.logs (sample.chanHandler http.NewResponse (sample.post "") (sample.world 0)).2
    = [ {| poem.level := poem.LevelInfo; poem.attrs := [];
           poem.message :=
             "failed to encode response: json: unsupported type: chan int";
           poem.args := [] |} ].
Proof. split_and!; reflexivity. Qed.

(** C2, as first stated, fails: the sample body has the three required
    fields, the random source hands out "abcdefghij", a key of the start-up
    store, and the response is 500 with the could-not-create message. *)
Lemma POST_poem_collision_is_500 :
  sample.decode_Poem (http.Body (sample.post sample.body_annabel))
  = (sample.annabel, None)
  ∧ poem.ValidateToCreate sample.annabel = None
  ∧ (poem.NewID (sample.world 0)).1 = "abcdefghij"
  ∧ is_Some (poem.poems (poem.store (sample.world 0)) !! "abcdefghij")
  ∧ http.status
      (sample.serve poem.POST_poem (sample.post sample.body_annabel) (sample.world 0)).1
    = Some 500%Z
  ∧ http.body
      (sample.serve poem.POST_poem (sample.post sample.body_annabel) (sample.world 0)).1
    = "internal error: could not create" +:+ LF
  ∧ poem.store
      (sample.serve poem.POST_poem (sample.post sample.body_annabel) (sample.world 0)).2
    = poem.NewStore.
Proof. split_and!; try reflexivity. by eexists. Qed.

(** The amended C2 on the sample body, with the random source handing out
    "ABCDEFGHIJ": 201, and the record is stored under that identifier. *)
Lemma POST_poem_creates_witness :
  (sample.decode_Poem (http.Body (sample.post sample.body_annabel))
   = (sample.annabel, None)
   ∧ poem.Name sample.annabel ≠ "" ∧ poem.Author sample.annabel ≠ ""
   ∧ poem.Text sample.annabel ≠ "")
  ∧ http.status
      (sample.serve poem.POST_poem (sample.post sample.body_annabel) (sample.world 26)).1
    = Some 201%Z
  ∧ poem.poems (poem.store
      (sample.serve poem.POST_poem (sample.post sample.body_annabel) (sample.world 26)).2)
    !! "ABCDEFGHIJ"
    = Some {| poem.id := "ABCDEFGHIJ"; poem.Name := "Annabel Lee";
              poem.Author := "Edgar Allan Poe";
              poem.Text := "It was many and many a year ago" |}.
Proof.
  split; [split_and!; [reflexivity | discriminate..] |].
  destruct (POST_poem_creates_unless_collision map_to_list (decoder := sample.decode_Poem)
              sample.encode_Poem sample.encode_Poems
              (sample.post sample.body_annabel) (sample.world 26) sample.annabel
              eq_refl ltac:(discriminate) ltac:(discriminate) ltac:(discriminate))
    as [Hnew _].
  destruct (Hnew eq_refl) as (Hstatus & _ & Hstored & _).
  split; [exact Hstatus | exact Hstored].
Defined.

(** C7 on the start-up store, ranged over in the order of [map_to_list]:
    two poems by Goethe, nobody called Rilke. *)
Lemma GET_poems_by_author_witness :
  (∀ m : gmap string poem.Poem, map_to_list m ≡ₚ map_to_list m)
  ∧ http.status
      (sample.serve poem.GET_poems_author (sample.get "author" "Goethe")
         (sample.world 0)).1 = Some 200%Z
  ∧ http.status
      (sample.serve poem.GET_poems_author (sample.get "author" "Rilke")
         (sample.world 0)).1 = Some 404%Z.
Proof.
  split; [done|]. split.
  - refine (proj1 (proj1 (proj2 (proj2 (proj2
      (GET_poems_by_author map_to_list (decoder := sample.decode_Poem)
         sample.encode_Poem sample.encode_Poems (λ m, reflexivity _)
         (sample.get "author" "Goethe") (sample.world 0))))) _)).
    eexists "isjzB57elf", _. split; reflexivity.
  - reflexivity.
Defined.

(** C8 on a body cut short. *)
Lemma Handle_decoder_error_witness :
  gwu.JSON (In := poem.Poem) (decoder := sample.decode_Poem)
    (sample.post sample.body_truncated)
    (gwu.handlerOpts poem.slog_default [poem.route_log "POST" "/poem"])
    (sample.world 0)
  = ((zero_value, Some gwu.ErrDecodeRequest), sample.world 0)
  ∧ http.status
      (sample.serve poem.POST_poem (sample.post sample.body_truncated)
         (sample.world 0)).1 = Some 400%Z
  ∧ http.body
      (sample.serve poem.POST_poem (sample.post sample.body_truncated)
         (sample.world 0)).1 = "failed to decode request" +:+ LF.
Proof.
  split; [reflexivity|].
  destruct (Handle_decoder_error poem.slog_default
              (gwu.JSON (decoder := sample.decode_Poem))
              (gwu.ValIn poem.Create poem.ValidateToCreate)
              (encoder := poem.Poem_Marshaler sample.encode_Poem)
              [poem.route_log "POST" "/poem"]
              (sample.post sample.body_truncated) (sample.world 0) (sample.world 0)
              zero_value gwu.ErrDecodeRequest eq_refl)
    as (_ & Hstatus & Hbody & _).
  split; [exact Hstatus | exact Hbody].
Defined.

(** C9, as first stated, fails on status codes that do not complete a
    response with a body. A business-logic function that returns its error
    with 100 gets an informational response and then 200 with the error
    text; with 0 the write of the header panics, and no status line and no
    body go out; with 204 the status line goes out and the error text is
    refused. *)
Lemma Handle_exec_error_other_codes :
  (sample_codes.failWith 100 tt poem.AnyNil
     (gwu.handlerOpts poem.slog_default []) (sample.world 0)).1
  = (zero_value, 100%Z, Some "try again later")
  ∧ (http.status
       (sample_codes.failHandler 100 http.NewResponse (sample.post "") (sample.world 0)).1
     = Some 200%Z
     ∧ fst <$> http.informational
         (sample_codes.failHandler 100 http.NewResponse (sample.post "")
            (sample.world 0)).1 = [100%Z]
     ∧ http.body
         (sample_codes.failHandler 100 http.NewResponse (sample.post "")
            (sample.world 0)).1 = "try again later" +:+ LF)
  ∧ (http.status
       (sample_codes.failHandler 0 http.NewResponse (sample.post "") (sample.world 0)).1
     = None
     ∧ http.panicked
         (sample_codes.failHandler 0 http.NewResponse (sample.post "") (sample.world 0)).1
       = Some "invalid WriteHeader code 0"
     ∧ http.body
         (sample_codes.failHandler 0 http.NewResponse (sample.post "") (sample.world 0)).1
       = "")
  ∧ (http.status
       (sample_codes.failHandler 204 http.NewResponse (sample.post "") (sample.world 0)).1
     = Some 204%Z
     ∧ http.body
         (sample_codes.failHandler 204 http.NewResponse (sample.post "")
            (sample.world 0)).1 = "").
Proof. split_and!; reflexivity. Qed.

(** The amended C9 on GET /poem/{id} for an identifier that is not a key. *)
Lemma Handle_exec_error_witness :
  (poem.IDIn "id" (sample.get "id" "nosuchpoem")
     (gwu.handlerOpts poem.slog_default [poem.route_log "GET" "/poem/{id}"])
     (sample.world 0)
   = (("nosuchpoem", None), sample.world 0)
   ∧ (poem.ByID tt "nosuchpoem"
        (gwu.handlerOpts poem.slog_default [poem.route_log "GET" "/poem/{id}"])
        (sample.world 0)).1
     = (zero_value, 404%Z, Some poem.ErrNotFound))
  ∧ http.status
      (sample.serve poem.GET_poem_id (sample.get "id" "nosuchpoem") (sample.world 0)).1
    = Some 404%Z
  ∧ http.body
      (sample.serve poem.GET_poem_id (sample.get "id" "nosuchpoem") (sample.world 0)).1
    = "poem(s) do(es) not exist" +:+ LF.
Proof.
  split; [split; reflexivity|].
  destruct (Handle_exec_error poem.slog_default
              (poem.IDIn "id") poem.ByID
              (encoder := poem.Poem_Marshaler sample.encode_Poem)
              [poem.route_log "GET" "/poem/{id}"]
              (sample.get "id" "nosuchpoem") (sample.world 0) (sample.world 0)
              _ "nosuchpoem" zero_value 404%Z poem.ErrNotFound eq_refl eq_refl
              ltac:(lia) ltac:(discriminate) ltac:(discriminate))
    as (_ & Hstatus & Hbody & _).
  split; [exact Hstatus | exact Hbody].
Defined.

(** C10 on a body cut short: the library's "unexpected EOF" is replaced by
    the sentinel. *)
Lemma JSON_decode_error_witness :
  (sample.decode_Poem (http.Body (sample.post sample.body_truncated))).2
  = Some "unexpected EOF"
  ∧ (gwu.JSON (In := poem.Poem) (decoder := sample.decode_Poem)
       (sample.post sample.body_truncated)
       (gwu.handlerOpts poem.slog_default [poem.route_log "POST" "/poem"])
       (sample.world 0)).1.2
    = Some "failed to decode request"
  ∧ http.body
      (sample.serve poem.POST_poem (sample.post sample.body_truncated)
         (sample.world 0)).1 = "failed to decode request" +:+ LF.
Proof.
  split; [reflexivity|].
  destruct (JSON_decode_error_is_sentinel poem.slog_default
              (decoder := sample.decode_Poem)
              (encoder := poem.Poem_Marshaler sample.encode_Poem)
              (gwu.ValIn poem.Create poem.ValidateToCreate)
              [poem.route_log "POST" "/poem"]
              (sample.post sample.body_truncated)
              (gwu.handlerOpts poem.slog_default [poem.route_log "POST" "/poem"])
              (sample.world 0) "unexpected EOF" eq_refl)
    as (Hsentinel & _ & _ & Hbody & _).
  split; [exact Hsentinel | exact Hbody].
Defined.

(** C5 and C6 on the sample data: a body without author is refused with
    400 and leaves the world as it was; a created poem is fetched back
    under the identifier the server drew, after other requests too. *)
Example POST_poem_without_author :
  sample.serve poem.POST_poem (sample.post sample.body_no_author) (sample.world 26)
  = (http.Error http.NewResponse "author required to create poem" 400%Z,
     sample.world 26).
Proof. reflexivity. Qed.

Example POST_then_GET_poem :
  http.body
    (sample.serve poem.GET_poem_id (sample.get "id" "ABCDEFGHIJ")
       (poem.serve_all map_to_list (decoder := sample.decode_Poem)
          sample.encode_Poem sample.encode_Poems
          [(poem.POST_poem, sample.post sample.body_annabel);
           (poem.GET_poems, sample.post "");
           (poem.POST_poem, sample.post sample.body_annabel)]
          (sample.world 26))).1
  = sample.encode_Poem
      {| poem.id := "ABCDEFGHIJ"; poem.Name := "Annabel Lee";
         poem.Author := "Edgar Allan Poe";
         poem.Text := "It was many and many a year ago" |} +:+ LF.
Proof. reflexivity. Qed.

(** * Further properties of the request pipeline *)

(** [WriteHeader] on a writer without a final status line, by the code. *)
Lemma WriteHeader_cases (code : Z) (w : http.ResponseWriter) :
  http.panicked w = None → http.sent w = None →
  ((code < 100 ∨ 999 < code)%Z →
     http.sent (http.WriteHeader code w) = None
     ∧ is_Some (http.panicked (http.WriteHeader code w)))
  ∧ ((code = 101 ∨ 200 ≤ code ≤ 999)%Z →
     http.sent (http.WriteHeader code w) = Some (code, http.handlerHeader w)
     ∧ http.panicked (http.WriteHeader code w) = None)
  ∧ ((100 ≤ code ≤ 199)%Z → code ≠ 101%Z →
     http.sent (http.WriteHeader code w) = None
     ∧ http.panicked (http.WriteHeader code w) = None).
Proof.
  intros Hp Hs. unfold http.WriteHeader, http.validCode, http.informationalCode.
  rewrite Hp, Hs.
  destruct (Z.ltb_spec code 100), (Z.ltb_spec 999 code),
    (Z.leb_spec 100 code), (Z.leb_spec code 199), (Z.eqb_spec code 101);
    simpl; split_and!; intros; try lia; eauto.
Qed.

(** After a write the final status is the one that was out, or 200; the
    write does not panic. *)
Lemma Write_status (w : http.ResponseWriter) (data : string) :
  http.panicked w = None →
  http.status (http.Write data w).1 = Some (default 200%Z (http.status w))
  ∧ http.panicked (http.Write data w).1 = None.
Proof.
  intros Hp. unfold http.status, http.Write. rewrite Hp. cbv zeta.
  destruct (http.sent w) as [[st h]|] eqn:Hs.
  - destruct data; cbn; rewrite ?Hs; cbn; [by rewrite ?Hp|].
    destruct (http.bodyAllowedForStatus st); cbn; by rewrite ?Hs, ?Hp.
  - unfold http.WriteHeader. rewrite Hp, Hs. cbn. by destruct data.
Qed.

(** [http.Error] after the final status line keeps it. *)
Lemma Error_keeps_status (w : http.ResponseWriter) (msg : string) (code st : Z) :
  http.panicked w = None → http.status w = Some st →
  http.status (http.Error w msg code) = Some st.
Proof.
  intros Hp Hs. unfold http.Error. cbv zeta.
  set (w1 := http.WriteHeader code _).
  assert (http.panicked w1 = None ∧ http.status w1 = Some st) as [Hp1 Hs1].
  { subst w1. unfold http.status in *. unfold http.WriteHeader. cbn. rewrite Hp.
    destruct (http.sent w); [done | by cbn in Hs]. }
  destruct (Write_status w1 (msg +:+ LF) Hp1) as [-> _]. by rewrite Hs1.
Qed.

(** [http.Error] on a writer without a final status line, by the code. *)
Lemma Error_status_cases (w : http.ResponseWriter) (msg : string) (code : Z) :
  http.panicked w = None → http.sent w = None →
  ((code < 100 ∨ 999 < code)%Z →
     http.status (http.Error w msg code) = None
     ∧ is_Some (http.panicked (http.Error w msg code)))
  ∧ ((code = 101 ∨ 200 ≤ code ≤ 999)%Z →
     http.status (http.Error w msg code) = Some code)
  ∧ ((100 ≤ code ≤ 199)%Z → code ≠ 101%Z →
     http.status (http.Error w msg code) = Some 200%Z).
Proof.
  intros Hp Hs. unfold http.Error. cbv zeta.
  set (w0 := http.Header_Set "X-Content-Type-Options" _ _).
  destruct (WriteHeader_cases code w0) as (Hbad & Hfinal & Hinfo); [done..|].
  split_and!.
  - intros Hc. destruct (Hbad Hc) as [Hs1 [m Hp1]].
    unfold http.Write. rewrite Hp1. cbn [fst]. unfold http.status.
    rewrite Hs1, Hp1. split; [done | by eexists].
  - intros Hc. destruct (Hfinal Hc) as [Hs1 Hp1].
    destruct (Write_status (http.WriteHeader code w0) (msg +:+ LF) Hp1) as [-> _].
    unfold http.status. by rewrite Hs1.
  - intros Hc Hn. destruct (Hinfo Hc Hn) as [Hs1 Hp1].
    destruct (Write_status (http.WriteHeader code w0) (msg +:+ LF) Hp1) as [-> _].
    unfold http.status. by rewrite Hs1.
Qed.


Section PipelineFurther.
Context {World Any Ctx : Type}.
Variable slog_default : gwu.Logger World Any.

#[local] Abbreviation handlerOpts := (gwu.handlerOpts slog_default).

(** X1. When the decoder, the business-logic function and the encoder all
    succeed, and the status code the function returned completes a
    response and allows a body (200 to 999, neither 204 nor 304), the
    handler answers a new response with that status code, the JSON content
    type and, as body, the encoded output followed by a line feed; one
    status line goes out and the world is the one the function left
    (nothing is logged). *)
Theorem Handle_success_writes_json {In Out} {encoder : json.Marshaler Out}
    (inFn : gwu.CnIn World Any Ctx In) (fn : gwu.Exec World Any Ctx In Out)
    (optFns : list (gwu.HandleOptsFunc World Any))
    (r : http.Request Ctx) (σ σ1 σ2 : World) (inp : In) (out : Out)
    (code : Z) (text : string) :
  inFn r (handlerOpts optFns) σ = ((inp, None), σ1) →
  fn (http.Context r) inp (handlerOpts optFns) σ1 = ((out, code, None), σ2) →
  json.Marshal out = inr text →
  (200 ≤ code ≤ 999)%Z → code ≠ 204%Z → code ≠ 304%Z →
  gwu.Handle slog_default inFn fn optFns http.NewResponse r σ
  = (jsonResponse code text, σ2)
  ∧ http.status (gwu.Handle slog_default inFn fn optFns http.NewResponse r σ).1
    = Some code
  ∧ http.sentHeader (gwu.Handle slog_default inFn fn optFns http.NewResponse r σ).1
      "Content-Type" = Some ["application/json"]
  ∧ http.body (gwu.Handle slog_default inFn fn optFns http.NewResponse r σ).1
    = text +:+ LF
  ∧ http.superfluous (gwu.Handle slog_default inFn fn optFns http.NewResponse r σ).1
    = [].
Proof.
  intros Hin Hfn Hm Hrange H204 H304. rewrite Handle_unfold, Hin, Hfn.
  rewrite (IntoJSON_ok _ _ code _ text) by done. done.
Qed.

(** X2. A handler whose business-logic function is wrapped by [ValIn]:
    when the decoder succeeds and the validation function refuses the
    input, the response is status 400 with the validation error as body,
    and the world is the one the decoder left, whichever function is
    wrapped. *)
Theorem Handle_ValIn_rejects {In Out} {encoder : json.Marshaler Out} `{!GoZero Out}
    (inFn : gwu.CnIn World Any Ctx In) (fn : gwu.Exec World Any Ctx In Out)
    (fnVal : In → option error)
    (optFns : list (gwu.HandleOptsFunc World Any))
    (r : http.Request Ctx) (σ σ1 : World) (inp : In) (e : error) :
  inFn r (handlerOpts optFns) σ = ((inp, None), σ1) →
  fnVal inp = Some e →
  gwu.Handle slog_default inFn (gwu.ValIn fn fnVal) optFns http.NewResponse r σ
  = (http.Error http.NewResponse e 400%Z, σ1)
  ∧ http.status
      (gwu.Handle slog_default inFn (gwu.ValIn fn fnVal) optFns http.NewResponse r σ).1
    = Some 400%Z
  ∧ http.body
      (gwu.Handle slog_default inFn (gwu.ValIn fn fnVal) optFns http.NewResponse r σ).1
    = e +:+ LF.
Proof.
  intros Hin Hval. rewrite Handle_unfold, Hin. unfold gwu.ValIn. rewrite Hval.
  cbn [fst]. unfold http.StatusBadRequest.
  rewrite Error_NewResponse by final_code. done.
Qed.

(** X3. The status line of a handler on a new response. When the decoder
    returns an error it is 400. Otherwise the code the business-logic
    function returned decides: a code outside 100..999 makes the write of
    the header panic, and no status line goes out; a code of 200 or more,
    and 101, is the status line, whether that function, or the encoding of
    its output, failed or not; after an informational code (the other 1xx)
    the status line is 200, or 500 when the encoding of the output
    failed. *)
Theorem Handle_status_line {In Out} {encoder : json.Marshaler Out}
    (inFn : gwu.CnIn World Any Ctx In) (fn : gwu.Exec World Any Ctx In Out)
    (optFns : list (gwu.HandleOptsFunc World Any))
    (r : http.Request Ctx) (σ : World) :
  (∀ inp e σ1,
     inFn r (handlerOpts optFns) σ = ((inp, Some e), σ1) →
     http.status (gwu.Handle slog_default inFn fn optFns http.NewResponse r σ).1
     = Some 400%Z)
  ∧ (∀ inp σ1 out code err σ2,
       inFn r (handlerOpts optFns) σ = ((inp, None), σ1) →
       fn (http.Context r) inp (handlerOpts optFns) σ1 = ((out, code, err), σ2) →
       ((code < 100 ∨ 999 < code)%Z →
          http.status (gwu.Handle slog_default inFn fn optFns http.NewResponse r σ).1
          = None
          ∧ is_Some (http.panicked
              (gwu.Handle slog_default inFn fn optFns http.NewResponse r σ).1))
       ∧ ((code = 101 ∨ 200 ≤ code ≤ 999)%Z →
          http.status (gwu.Handle slog_default inFn fn optFns http.NewResponse r σ).1
          = Some code)
       ∧ ((100 ≤ code ≤ 199)%Z → code ≠ 101%Z →
          http.status (gwu.Handle slog_default inFn fn optFns http.NewResponse r σ).1
          = Some (match err, json.Marshal out with
                  | None, inl _ => 500%Z
                  | _, _ => 200%Z
                  end))).
Proof.
  split.
  - intros inp e σ1 Hin. rewrite Handle_unfold, Hin. cbn [fst].
    by rewrite Error_NewResponse by final_code.
  - intros inp σ1 out code err σ2 Hin Hfn. rewrite Handle_unfold, Hin, Hfn.
    destruct err as [e|].
    { cbn [fst]. by apply Error_status_cases. }
    unfold gwu.IntoJSON. cbv zeta.
    set (w0 := http.Header_Set "Content-Type" "application/json" _).
    destruct (WriteHeader_cases code w0) as (Hbad & Hfinal & Hinfo); [done..|].
    split_and!.
    + intros Hc. destruct (Hbad Hc) as [Hs [m Hp]]. rewrite Hp. cbn [fst].
      unfold http.status. rewrite Hs, Hp. split; [done | by eexists].
    + intros Hc. destruct (Hfinal Hc) as [Hs Hp]. rewrite Hp.
      assert (http.status (http.WriteHeader code w0) = Some code) as Hst
        by (unfold http.status; by rewrite Hs).
      unfold json.Encoder_Encode. destruct (json.Marshal out) as [me|text].
      * cbn [fst]. by apply Error_keeps_status.
      * destruct (Write_status (http.WriteHeader code w0) (text +:+ LF) Hp)
          as [Hs1 Hp1]. rewrite Hst in Hs1.
        destruct (http.Write (text +:+ LF) (http.WriteHeader code w0))
          as [w1 [we|]]; cbn [fst] in *; [|done].
        by apply Error_keeps_status.
    + intros Hc Hn. destruct (Hinfo Hc Hn) as [Hs Hp]. rewrite Hp.
      assert (http.status (http.WriteHeader code w0) = None) as Hst
        by (unfold http.status; by rewrite Hs).
      unfold json.Encoder_Encode. destruct (json.Marshal out) as [me|text].
      * cbn [fst].
        by apply (Error_status_cases (http.WriteHeader code w0) _ 500);
          [| | right; lia].
      * destruct (Write_status (http.WriteHeader code w0) (text +:+ LF) Hp)
          as [Hs1 Hp1]. rewrite Hst in Hs1.
        destruct (http.Write (text +:+ LF) (http.WriteHeader code w0))
          as [w1 [we|]]; cbn [fst] in *; [|done].
        by apply Error_keeps_status.
Qed.

(** X4. The logger of a handler is decided by the last option function: a
    [Log] given last, whatever came before it, makes its logger the one
    the handler logs with, and the default logger when it was given nil.
    That logger is the one handed to the decoder and to the business-logic
    function, and the one a failed encoding of the output is reported to
    (for every status code of three digits). *)
Theorem Handle_logger_last_option_wins {In Out} {encoder : json.Marshaler Out}
    (inFn : gwu.CnIn World Any Ctx In) (fn : gwu.Exec World Any Ctx In Out)
    (optFns : list (gwu.HandleOptsFunc World Any))
    (o : option (gwu.Logger World Any))
    (r : http.Request Ctx) (σ σ1 σ2 : World) (inp : In) (out : Out)
    (code : Z) (err : error) :
  inFn r (handlerOpts (optFns ++ [gwu.Log o])) σ = ((inp, None), σ1) →
  fn (http.Context r) inp (handlerOpts (optFns ++ [gwu.Log o])) σ1
  = ((out, code, None), σ2) →
  json.Marshal out = inl err →
  (100 ≤ code ≤ 999)%Z →
  gwu.Log_ (handlerOpts (optFns ++ [gwu.Log o])) = Some (default slog_default o)
  ∧ (gwu.Handle slog_default inFn fn (optFns ++ [gwu.Log o]) http.NewResponse r σ).2
    = gwu.Info (default slog_default o) ("failed to encode response: " +:+ err) [] σ2.
Proof.
  intros Hin Hfn Hm Hcode.
  assert (Hopts : gwu.buildOpts slog_default (optFns ++ [gwu.Log o])
                  = (default slog_default o, {| gwu.Log_ := Some (default slog_default o) |})).
  { unfold gwu.buildOpts. rewrite foldl_app. by destruct o. }
  split; [unfold gwu.handlerOpts; by rewrite Hopts|].
  rewrite Handle_unfold, Hin, Hfn, Hopts. cbn [fst].
  unfold gwu.IntoJSON. cbv zeta.
  set (w0 := http.Header_Set "Content-Type" "application/json" _).
  destruct (WriteHeader_cases code w0) as (_ & Hfinal & Hinfo); [done..|].
  assert (http.panicked (http.WriteHeader code w0) = None) as ->.
  { destruct (decide (100 ≤ code ≤ 199 ∧ code ≠ 101)%Z) as [[? ?]|];
      [by apply Hinfo | apply Hfinal; lia]. }
  unfold json.Encoder_Encode. by rewrite Hm.
Qed.

End PipelineFurther.

(** * Further properties of the poem example *)

(** ** Identifiers *)

Lemma get_in_string (s : string) (k : nat) (c : Ascii.ascii) :
  String.get k s = Some c → In c (String.list_ascii_of_string s).
Proof.
  revert k. induction s as [|a s IH]; intros k; [done|].
  destruct k as [|k]; simpl.
  - intros [= ->]. by left.
  - intros Hk. right. by eapply IH.
Qed.

Lemma charAt_in_string (s : string) (k : nat) :
  k < String.length s → In (poem.charAt s k) (String.list_ascii_of_string s).
Proof.
  intros Hk. unfold poem.charAt.
  destruct (String.get k s) as [c|] eqn:E; [by eapply get_in_string|].
  exfalso. revert k Hk E. induction s as [|a s IH]; intros k Hk; simpl in *; [lia|].
  destruct k as [|k]; [done|]. apply IH. lia.
Qed.

Lemma rand_Intn_spec (n : nat) (σ : poem.World) :
  (n ≠ 0 → (poem.rand_Intn n σ).1 < n)
  ∧ poem.cursor (poem.random (poem.rand_Intn n σ).2) = S (poem.cursor (poem.random σ))
  ∧ poem.draws (poem.random (poem.rand_Intn n σ).2) = poem.draws (poem.random σ).
Proof.
  split_and!; [|done..]. intros Hn. by apply Nat.mod_upper_bound.
Qed.

Lemma NewID_fill_shape (n : nat) (σ : poem.World) :
  String.length (poem.NewID_fill n σ).1 = n
  ∧ (∀ c, In c (String.list_ascii_of_string (poem.NewID_fill n σ).1) →
          In c (String.list_ascii_of_string poem.IDCharset))
  ∧ poem.cursor (poem.random (poem.NewID_fill n σ).2)
    = poem.cursor (poem.random σ) + n
  ∧ poem.draws (poem.random (poem.NewID_fill n σ).2) = poem.draws (poem.random σ).
Proof.
  revert σ. induction n as [|n IH]; intros σ.
  - cbn [poem.NewID_fill fst snd]. split_and!; [done | by intros c [] | lia | done].
  - cbn [poem.NewID_fill].
    destruct (rand_Intn_spec (String.length poem.IDCharset) σ) as (Hk & Hc1 & Hd1).
    destruct (poem.rand_Intn (String.length poem.IDCharset) σ) as [k σ1].
    destruct (IH σ1) as (Hlen & Hin & Hcur & Hdr).
    destruct (poem.NewID_fill n σ1) as [rest σ2]. cbn [fst snd] in *.
    split_and!.
    + cbn [String.length]. by rewrite Hlen.
    + cbn [String.list_ascii_of_string]. intros c [<-|Hc]; [|by apply Hin].
      apply charAt_in_string. by apply Hk.
    + lia.
    + congruence.
Qed.

(** X5. [NewID] returns an identifier of exactly ten characters, each one
    a character of [IDCharset]; it takes ten numbers from the random
    source and touches neither the store nor the log. *)
Theorem NewID_ten_chars_of_charset (σ : poem.World) :
  String.length (poem.NewID σ).1 = 10
  ∧ (∀ c, In c (String.list_ascii_of_string (poem.NewID σ).1) →
          In c (String.list_ascii_of_string poem.IDCharset))
  ∧ poem.cursor (poem.random (poem.NewID σ).2) = poem.cursor (poem.random σ) + 10
  ∧ poem.draws (poem.random (poem.NewID σ).2) = poem.draws (poem.random σ)
  ∧ poem.store (poem.NewID σ).2 = poem.store σ
  ∧ poem.logs (poem.NewID σ).2 = poem.logs σ.
Proof.
  destruct (NewID_fill_shape poem.IDLength σ) as (Hlen & Hin & Hcur & Hdr).
  destruct (NewID_fill_frame poem.IDLength σ) as [Hst Hlg].
  unfold poem.NewID. split_and!; assumption.
Qed.

(** ** The store *)

(** X6. [Add] followed by the other store methods: after [Add] of a
    record, whether it was accepted or refused, some record sits under its
    identifier and any further [Add] with that identifier is refused
    without changing the store; when it was accepted, [Poem] of the
    identifier returns exactly the record, without error; and every
    identifier [Poem] found before is found with the same record after. *)
Theorem Store_Add_then_Poem_and_Add (s : poem.Store) (p : poem.Poem) :
  is_Some (poem.poems (poem.Store_Add s p).2 !! poem.id p)
  ∧ (∀ q, poem.id q = poem.id p →
       poem.Store_Add (poem.Store_Add s p).2 q
       = (Some poem.errDuplicate, (poem.Store_Add s p).2))
  ∧ ((poem.Store_Add s p).1 = None →
       poem.Store_Poem (poem.Store_Add s p).2 (poem.id p) = (p, None))
  ∧ (∀ k q, poem.Store_Poem s k = (q, None) →
       poem.Store_Poem (poem.Store_Add s p).2 k = (q, None)).
Proof.
  unfold poem.Store_Add, poem.Store_Poem.
  destruct (poem.poems s !! poem.id p) as [old|] eqn:E; cbn [fst snd].
  - split_and!; [by rewrite E | | done | done].
    intros q ->. unfold poem.Store_Add. by rewrite E.
  - unfold poem.Store_set; cbn [poem.poems]. split_and!.
    + rewrite lookup_insert_eq. by eexists.
    + intros q Hq. unfold poem.Store_Add. cbn [poem.poems]. rewrite Hq.
      by rewrite lookup_insert_eq.
    + intros _. by rewrite lookup_insert_eq.
    + intros k q. destruct (poem.poems s !! k) as [q'|] eqn:Ek; [|done].
      intros [= ->]. rewrite lookup_insert_ne; [by rewrite Ek | congruence].
Qed.

(** ** The routes *)

Lemma foldl_all (l : list (string * poem.Poem)) (acc : list poem.Poem) :
  foldl (λ acc kv, acc ++ [kv.2]) acc l = acc ++ l.*2.
Proof.
  revert acc. induction l as [|[k p] l IH]; intros acc; simpl.
  - by rewrite app_nil_r.
  - by rewrite IH, <- app_assoc.
Qed.

Section PoemFurther.
Variable range : gmap string poem.Poem → list (string * poem.Poem).
Context {Ctx : Type} {decoder : json.Unmarshaler poem.Poem}.
Variable encode_Poem : poem.Poem → string.
Variable encode_Poems : list poem.Poem → string.

#[local] Abbreviation serve := (poem.serve range encode_Poem encode_Poems).
#[local] Abbreviation serve_all := (poem.serve_all range encode_Poem encode_Poems).

(** X7. POST /poem with a body that decodes but lacks a required field is
    answered with 400 and the message naming the first missing field, in
    the order name, author, text; the world stays exactly as it was: no
    identifier is drawn, nothing is stored, nothing is logged. *)
Theorem POST_poem_missing_field (r : http.Request Ctx) (σ : poem.World) (p : poem.Poem) :
  json.Decode (http.Body r) = (p, None) →
  poem.Name p = "" ∨ poem.Author p = "" ∨ poem.Text p = "" →
  http.status (serve poem.POST_poem r σ).1 = Some 400%Z
  ∧ http.body (serve poem.POST_poem r σ).1
    = ((if decide (poem.Name p = "") then "name"
        else if decide (poem.Author p = "") then "author" else "text")
       +:+ " required to create poem") +:+ LF
  ∧ (serve poem.POST_poem r σ).2 = σ.
Proof.
  intros Hdec Hmiss. rewrite serve_POST_poem, Hdec.
  unfold poem.ValidateToCreate.
  destruct (decide (poem.Name p = "")); [done|].
  destruct (decide (poem.Author p = "")); [done|].
  destruct (decide (poem.Text p = "")); [done|].
  by destruct Hmiss as [?|[?|?]].
Qed.

(** X8. POST /poem never takes the identifier from the request: two bodies
    that decode to the same name, author and text get the same response
    and leave the same world, whatever identifiers they carry. *)
Theorem POST_poem_ignores_posted_id (r1 r2 : http.Request Ctx) (σ : poem.World)
    (p1 p2 : poem.Poem) :
  json.Decode (http.Body r1) = (p1, None) →
  json.Decode (http.Body r2) = (p2, None) →
  poem.Name p1 = poem.Name p2 →
  poem.Author p1 = poem.Author p2 →
  poem.Text p1 = poem.Text p2 →
  serve poem.POST_poem r1 σ = serve poem.POST_poem r2 σ.
Proof.
  intros Hd1 Hd2 Hn Ha Ht. rewrite !serve_POST_poem, Hd1, Hd2.
  unfold poem.ValidateToCreate. by rewrite Hn, Ha, Ht.
Qed.

(** X9. GET /poems always answers 200 with all records of the store, each
    once, in the order the map happens to be ranged over: as many as the
    store has keys, the empty list for an empty store. It reads nothing
    of the request and leaves the world as it was. *)
Theorem GET_poems_lists_all
    (range_perm : ∀ m, range m ≡ₚ map_to_list m)
    (r : http.Request Ctx) (σ : poem.World) :
  serve poem.GET_poems r σ
  = (jsonResponse 200%Z (encode_Poems (poem.Store_All range (poem.store σ))), σ)
  ∧ poem.Store_All range (poem.store σ)
    ≡ₚ (map_to_list (poem.poems (poem.store σ))).*2
  ∧ length (poem.Store_All range (poem.store σ)) = size (poem.poems (poem.store σ))
  ∧ (poem.poems (poem.store σ) = ∅ → poem.Store_All range (poem.store σ) = [])
  ∧ ∀ r' : http.Request Ctx, serve poem.GET_poems r' σ = serve poem.GET_poems r σ.
Proof.
  assert (Hall : poem.Store_All range (poem.store σ)
                 ≡ₚ (map_to_list (poem.poems (poem.store σ))).*2).
  { unfold poem.Store_All. rewrite foldl_all. by rewrite range_perm. }
  split_and!.
  - apply serve_GET_poems.
  - done.
  - by rewrite Hall, length_fmap, length_map_to_list.
  - intros Hempty. apply Permutation_nil_r. rewrite Hall, Hempty.
    by rewrite map_to_list_empty.
  - intros r'. by rewrite !serve_GET_poems.
Qed.

(** X10. The three GET routes only read: they change neither the store nor
    the random source, and what was logged before is still the beginning
    of the log. *)
Theorem GET_routes_read_only (r : http.Request Ctx) (σ : poem.World) :
  (poem.store (serve poem.GET_poem_id r σ).2 = poem.store σ
   ∧ poem.random (serve poem.GET_poem_id r σ).2 = poem.random σ
   ∧ poem.logs σ `prefix_of` poem.logs (serve poem.GET_poem_id r σ).2)
  ∧ (serve poem.GET_poems r σ).2 = σ
  ∧ (poem.store (serve poem.GET_poems_author r σ).2 = poem.store σ
     ∧ poem.random (serve poem.GET_poems_author r σ).2 = poem.random σ
     ∧ poem.logs σ `prefix_of` poem.logs (serve poem.GET_poems_author r σ).2).
Proof.
  split_and!.
  - rewrite serve_GET_poem_id. by case_match.
  - rewrite serve_GET_poem_id. by case_match.
  - rewrite serve_GET_poem_id. case_match; [done|]. by apply prefix_app_r.
  - by rewrite serve_GET_poems.
  - rewrite serve_GET_poems_author. by case_match.
  - rewrite serve_GET_poems_author. by case_match.
  - rewrite serve_GET_poems_author. case_match; [by apply prefix_app_r|done].
Qed.

Lemma serve_store_size (rt : poem.Route) (r : http.Request Ctx) (σ : poem.World) :
  size (poem.poems (poem.store (serve rt r σ).2)) ≤ S (size (poem.poems (poem.store σ))).
Proof.
  destruct rt.
  - rewrite serve_GET_poem_id. case_match; cbn [snd poem.emit poem.store]; lia.
  - rewrite serve_GET_poems. cbn [snd]. lia.
  - rewrite serve_POST_poem.
    destruct (json.Decode (http.Body r)) as [q [e|]]; [cbn [snd]; lia|].
    destruct (poem.ValidateToCreate q); [cbn [snd]; lia|]. cbv zeta.
    pose proof (NewID_frame σ) as [Hst _].
    destruct (poem.poems (poem.store σ) !! (poem.NewID σ).1) eqn:E;
      unfold poem.emit, poem.set_store, poem.Store_set;
      cbn [fst snd poem.store poem.poems].
    + rewrite Hst. lia.
    + by rewrite map_size_insert_None.
  - rewrite serve_GET_poems_author. case_match; cbn [snd poem.emit poem.store]; lia.
Qed.

(** X11. The store only grows: after any sequence of requests every record
    is still under its key, unchanged, and the store has gained at most one
    record per request. *)
Theorem serve_all_store_grows (reqs : list (poem.Route * http.Request Ctx))
    (σ : poem.World) :
  poem.poems (poem.store σ) ⊆ poem.poems (poem.store (serve_all reqs σ))
  ∧ size (poem.poems (poem.store σ)) ≤ size (poem.poems (poem.store (serve_all reqs σ)))
  ∧ size (poem.poems (poem.store (serve_all reqs σ)))
    ≤ size (poem.poems (poem.store σ)) + length reqs.
Proof.
  assert (Hsub : poem.poems (poem.store σ) ⊆ poem.poems (poem.store (serve_all reqs σ))).
  { apply map_subseteq_spec. intros k p Hk. by apply serve_all_keeps_records. }
  split_and!; [done | by apply map_subseteq_size |].
  clear Hsub. revert σ. induction reqs as [|[rt r] reqs IH]; intros σ.
  - cbn [poem.serve_all length]. lia.
  - cbn [poem.serve_all length]. specialize (IH (serve rt r σ).2).
    pose proof (serve_store_size rt r σ). lia.
Qed.

(** X12. Every record that the store gains while requests are served was
    created by POST /poem: it sits under its own identifier, that
    identifier has ten characters, and its name, author and text are not
    empty. *)
Theorem serve_all_new_records (reqs : list (poem.Route * http.Request Ctx))
    (σ : poem.World) (k : string) (p : poem.Poem) :
  poem.poems (poem.store (serve_all reqs σ)) !! k = Some p →
  poem.poems (poem.store σ) !! k = Some p
  ∨ (poem.id p = k ∧ String.length k = 10
     ∧ poem.Name p ≠ "" ∧ poem.Author p ≠ "" ∧ poem.Text p ≠ "").
Proof.
  revert σ. induction reqs as [|[rt r] reqs IH]; intros σ; [by left|].
  cbn [poem.serve_all]. intros Hk.
  destruct (IH _ Hk) as [Hold|Hnew]; [|by right]. clear IH Hk.
  destruct (poem.poems (poem.store σ) !! k) as [q|] eqn:Eq.
  - left. pose proof (serve_keeps_records range encode_Poem encode_Poems rt r σ k q Eq).
    congruence.
  - right.
    destruct (serve_adds_only_created range encode_Poem encode_Poems rt r σ k p Eq Hold)
      as (-> & _ & Hkey & Hid).
    split; [done|]. split.
    { rewrite Hkey. apply NewID_ten_chars_of_charset. }
    revert Hold. rewrite serve_POST_poem.
    destruct (json.Decode (http.Body r)) as [posted [e|]]; [cbn [snd]; congruence|].
    destruct (poem.ValidateToCreate posted) eqn:Hval; [cbn [snd]; congruence|].
    apply ValidateToCreate_None in Hval. cbv zeta.
    pose proof (NewID_frame σ) as [Hst _].
    destruct (poem.poems (poem.store σ) !! (poem.NewID σ).1) eqn:E;
      unfold poem.emit, poem.set_store, poem.Store_set;
      cbn [fst snd poem.store poem.poems].
    + rewrite Hst. congruence.
    + rewrite Hkey, lookup_insert_eq. by intros [= <-].
Qed.


(** X15. A poem created by POST /poem is listed from then on: after a 201
    and any further requests, the created record (the posted name, author
    and text under the identifier the server drew) is among the poems
    GET /poems lists and among the poems of its author, and
    GET /poems/author/{author} for that author answers 200. *)
Theorem created_poem_is_listed
    (range_perm : ∀ m, range m ≡ₚ map_to_list m)
    (rp : http.Request Ctx) (σ : poem.World) (posted : poem.Poem)
    (reqs : list (poem.Route * http.Request Ctx)) (r : http.Request Ctx) :
  json.Decode (http.Body rp) = (posted, None) →
  http.status (serve poem.POST_poem rp σ).1 = Some 201%Z →
  http.PathValue r "author" = poem.Author posted →
  let created := {| poem.id := (poem.NewID σ).1; poem.Name := poem.Name posted;
                    poem.Author := poem.Author posted;
                    poem.Text := poem.Text posted |} in
  let σ' := serve_all reqs (serve poem.POST_poem rp σ).2 in
  created ∈ poem.Store_All range (poem.store σ')
  ∧ created ∈ poem.Store_PoemsByAuthor range (poem.store σ') (poem.Author posted)
  ∧ http.status (serve poem.GET_poems_author r σ').1 = Some 200%Z.
Proof.
  intros Hdec Hst Hauthor created σ'.
  assert (Hstored : poem.poems (poem.store σ') !! (poem.NewID σ).1 = Some created).
  { subst σ'. apply serve_all_keeps_records.
    revert Hst. rewrite serve_POST_poem, Hdec.
    destruct (poem.ValidateToCreate posted);
      [by rewrite Error_NewResponse by final_code|]. cbv zeta.
    destruct (poem.poems (poem.store σ) !! (poem.NewID σ).1); [done|]. intros _.
    unfold poem.set_store, poem.Store_set; cbn [snd poem.store poem.poems].
    by rewrite lookup_insert_eq. }
  assert (Hin : created ∈ (map_to_list (poem.poems (poem.store σ'))).*2).
  { apply list_elem_of_fmap. exists ((poem.NewID σ).1, created). split; [done|].
    by apply elem_of_map_to_list. }
  assert (Hby : created ∈ poem.Store_PoemsByAuthor range (poem.store σ')
                            (poem.Author posted)).
  { rewrite PoemsByAuthor_filter, range_perm. by apply list_elem_of_filter. }
  split_and!.
  - unfold poem.Store_All. rewrite foldl_all. cbn [app]. by rewrite range_perm.
  - done.
  - rewrite serve_GET_poems_author, Hauthor.
    destruct (poem.Store_PoemsByAuthor range (poem.store σ') (poem.Author posted));
      [by apply elem_of_nil in Hby | done].
Qed.

End PoemFurther.

(** X13. The two listing methods agree, whatever order each ranges over
    the map in: the poems by an author are, up to order, those of the
    list of all poems whose author field is that string; none of them is
    missing from the list of all. *)
Theorem PoemsByAuthor_is_filter_of_All
    (range1 range2 : gmap string poem.Poem → list (string * poem.Poem))
    (s : poem.Store) (author : string) :
  (∀ m, range1 m ≡ₚ map_to_list m) →
  (∀ m, range2 m ≡ₚ map_to_list m) →
  poem.Store_PoemsByAuthor range1 s author
  ≡ₚ filter (λ p, poem.Author p = author) (poem.Store_All range2 s)
  ∧ (∀ p, p ∈ poem.Store_PoemsByAuthor range1 s author → p ∈ poem.Store_All range2 s)
  ∧ length (poem.Store_PoemsByAuthor range1 s author) ≤ length (poem.Store_All range2 s).
Proof.
  intros H1 H2.
  assert (Hperm : poem.Store_PoemsByAuthor range1 s author
            ≡ₚ filter (λ p, poem.Author p = author) (poem.Store_All range2 s)).
  { rewrite PoemsByAuthor_filter. unfold poem.Store_All. rewrite foldl_all.
    cbn [app]. by rewrite H1, H2. }
  split_and!; [done | |].
  - intros p. rewrite Hperm, list_elem_of_filter. by intros [_ ?].
  - rewrite Hperm. apply length_filter.
Qed.

(** * The further statements on the sample data *)

(** X1 on GET /poem/{id} for a key of the start-up store. *)
Lemma Handle_success_writes_json_witness :
  (poem.IDIn "id" (sample.get "id" "abc123defx")
     (gwu.handlerOpts poem.slog_default [poem.route_log "GET" "/poem/{id}"])
     (sample.world 0)
   = (("abc123defx", None), sample.world 0)
   ∧ (poem.ByID tt "abc123defx"
        (gwu.handlerOpts poem.slog_default [poem.route_log "GET" "/poem/{id}"])
        (sample.world 0)).1.2 = None)
  ∧ http.status
      (sample.serve poem.GET_poem_id (sample.get "id" "abc123defx") (sample.world 0)).1
    = Some 200%Z
  ∧ http.sentHeader
      (sample.serve poem.GET_poem_id (sample.get "id" "abc123defx") (sample.world 0)).1
      "Content-Type" = Some ["application/json"].
Proof.
  split; [split; reflexivity|].
  destruct (Handle_success_writes_json poem.slog_default
              (poem.IDIn "id") poem.ByID
              (encoder := poem.Poem_Marshaler sample.encode_Poem)
              [poem.route_log "GET" "/poem/{id}"]
              (sample.get "id" "abc123defx") (sample.world 0) (sample.world 0)
              (sample.world 0) "abc123defx" _ 200%Z _ eq_refl eq_refl eq_refl
              ltac:(lia) ltac:(discriminate) ltac:(discriminate))
    as (_ & Hstatus & Htype & _).
  split; [exact Hstatus | exact Htype].
Defined.

(** X4 on a handler whose output cannot be encoded, given a logger with
    attributes and then the nil logger: the failure is reported to the
    default logger, which keeps no attributes. *)
Lemma Handle_logger_last_option_wins_witness :
  json.Marshal sample.MakeChan = inl "json: unsupported type: chan int"
  ∧ (200 ≤ 200 ≤ 999)%Z
  ∧ poem.logs
      (gwu.Handle poem.slog_default gwu.Empty sample.chanExec
         ([poem.route_log "GET" "/chan"] ++ [gwu.Log None])
         http.NewResponse (sample.post "") (sample.world 0)).2
    = [ {| poem.level := poem.LevelInfo; poem.attrs := [];
           poem.message :=
             "failed to encode response: json: unsupported type: chan int";
           poem.args := [] |} ].
Proof.
  split; [reflexivity|]. split; [lia|].
  exact (f_equal poem.logs
    (proj2 (Handle_logger_last_option_wins poem.slog_default
              gwu.Empty sample.chanExec [poem.route_log "GET" "/chan"] None
              (sample.post "") (sample.world 0) (sample.world 0) (sample.world 0)
              poem.AnyNil sample.MakeChan 200%Z "json: unsupported type: chan int"
              eq_refl eq_refl eq_refl ltac:(lia)))).
Defined.

(** X2 on POST /poem with the body that has no author. *)
Lemma Handle_ValIn_rejects_witness :
  (gwu.JSON (In := poem.Poem) (decoder := sample.decode_Poem)
     (sample.post sample.body_no_author)
     (gwu.handlerOpts poem.slog_default [poem.route_log "POST" "/poem"])
     (sample.world 0)).1.2 = None
  ∧ poem.ValidateToCreate
      (sample.decode_Poem (http.Body (sample.post sample.body_no_author))).1
    = Some "author required to create poem"
  ∧ http.status
      (sample.serve poem.POST_poem (sample.post sample.body_no_author) (sample.world 0)).1
    = Some 400%Z
  ∧ http.body
      (sample.serve poem.POST_poem (sample.post sample.body_no_author) (sample.world 0)).1
    = "author required to create poem" +:+ LF.
Proof.
  split; [reflexivity|]. split; [reflexivity|].
  destruct (Handle_ValIn_rejects poem.slog_default
              (gwu.JSON (decoder := sample.decode_Poem))
              (poem.Create (Ctx := unit)) poem.ValidateToCreate
              (encoder := poem.Poem_Marshaler sample.encode_Poem)
              [poem.route_log "POST" "/poem"]
              (sample.post sample.body_no_author) (sample.world 0) (sample.world 0)
              _ "author required to create poem" eq_refl eq_refl)
    as (_ & Hstatus & Hbody).
  split; [exact Hstatus | exact Hbody].
Defined.

(** X7 on the body that has no author. *)
Lemma POST_poem_missing_field_witness :
  (sample.decode_Poem (http.Body (sample.post sample.body_no_author))).2 = None
  ∧ poem.Author (sample.decode_Poem (http.Body (sample.post sample.body_no_author))).1
    = ""
  ∧ http.body
      (sample.serve poem.POST_poem (sample.post sample.body_no_author)
         (sample.world 26)).1
    = "author required to create poem" +:+ LF
  ∧ (sample.serve poem.POST_poem (sample.post sample.body_no_author) (sample.world 26)).2
    = sample.world 26.
Proof.
  split; [reflexivity|]. split; [reflexivity|].
  destruct (POST_poem_missing_field map_to_list (decoder := sample.decode_Poem)
              sample.encode_Poem sample.encode_Poems
              (sample.post sample.body_no_author) (sample.world 26) _
              eq_refl (or_intror (or_introl eq_refl)))
    as (_ & Hbody & Hworld).
  split; [exact Hbody | exact Hworld].
Defined.

(** X8 on the sample body with and without an identifier of its own. *)
Lemma POST_poem_ignores_posted_id_witness :
  poem.id (sample_id.decode_Poem sample_id.body_with_id).1 = "1234567890"
  ∧ poem.id (sample_id.decode_Poem sample.body_annabel).1 = ""
  ∧ sample_id.serve poem.POST_poem (sample.post sample_id.body_with_id) (sample.world 26)
    = sample_id.serve poem.POST_poem (sample.post sample.body_annabel) (sample.world 26).
Proof.
  split; [reflexivity|]. split; [reflexivity|].
  exact (POST_poem_ignores_posted_id map_to_list (decoder := sample_id.decode_Poem)
           sample.encode_Poem sample.encode_Poems
           (sample.post sample_id.body_with_id) (sample.post sample.body_annabel)
           (sample.world 26) _ _ eq_refl eq_refl eq_refl eq_refl eq_refl).
Defined.

(** X9 on the start-up store: four poems. *)
Lemma GET_poems_lists_all_witness :
  (∀ m : gmap string poem.Poem, map_to_list m ≡ₚ map_to_list m)
  ∧ http.status (sample.serve poem.GET_poems (sample.post "") (sample.world 0)).1
    = Some 200%Z
  ∧ length (poem.Store_All map_to_list poem.NewStore) = 4.
Proof.
  split; [done|].
  destruct (GET_poems_lists_all map_to_list (decoder := sample.decode_Poem)
              sample.encode_Poem sample.encode_Poems (λ m, reflexivity _)
              (sample.post "") (sample.world 0))
    as (Hserve & _ & Hlen & _).
  split; [exact (f_equal (λ x, http.status x.1) Hserve) | exact Hlen].
Defined.

(** X12 on the poem a POST /poem creates at start-up: it was not in the
    start-up store, so it has the shape of a created record. *)
Lemma serve_all_new_records_witness :
  poem.poems (poem.store
    (poem.serve_all map_to_list (decoder := sample.decode_Poem)
       sample.encode_Poem sample.encode_Poems
       [(poem.POST_poem, sample.post sample.body_annabel)] (sample.world 26)))
    !! "ABCDEFGHIJ"
  = Some {| poem.id := "ABCDEFGHIJ"; poem.Name := "Annabel Lee";
            poem.Author := "Edgar Allan Poe";
            poem.Text := "It was many and many a year ago" |}
  ∧ (poem.poems (poem.store (sample.world 26)) !! "ABCDEFGHIJ"
     = Some {| poem.id := "ABCDEFGHIJ"; poem.Name := "Annabel Lee";
               poem.Author := "Edgar Allan Poe";
               poem.Text := "It was many and many a year ago" |}
     ∨ (poem.id {| poem.id := "ABCDEFGHIJ"; poem.Name := "Annabel Lee";
                   poem.Author := "Edgar Allan Poe";
                   poem.Text := "It was many and many a year ago" |} = "ABCDEFGHIJ"
        ∧ String.length "ABCDEFGHIJ" = 10
        ∧ poem.Name {| poem.id := "ABCDEFGHIJ"; poem.Name := "Annabel Lee";
                       poem.Author := "Edgar Allan Poe";
                       poem.Text := "It was many and many a year ago" |} ≠ ""
        ∧ poem.Author {| poem.id := "ABCDEFGHIJ"; poem.Name := "Annabel Lee";
                         poem.Author := "Edgar Allan Poe";
                         poem.Text := "It was many and many a year ago" |} ≠ ""
        ∧ poem.Text {| poem.id := "ABCDEFGHIJ"; poem.Name := "Annabel Lee";
                       poem.Author := "Edgar Allan Poe";
                       poem.Text := "It was many and many a year ago" |} ≠ ""))
  ∧ poem.poems (poem.store (sample.world 26)) !! "ABCDEFGHIJ" = None.
Proof.
  assert (poem.poems (poem.store
            (poem.serve_all map_to_list (decoder := sample.decode_Poem)
               sample.encode_Poem sample.encode_Poems
               [(poem.POST_poem, sample.post sample.body_annabel)] (sample.world 26)))
            !! "ABCDEFGHIJ"
          = Some {| poem.id := "ABCDEFGHIJ"; poem.Name := "Annabel Lee";
                    poem.Author := "Edgar Allan Poe";
                    poem.Text := "It was many and many a year ago" |}) as Hstored
    by reflexivity.
  split; [exact Hstored|]. split; [|reflexivity].
  exact (serve_all_new_records map_to_list (decoder := sample.decode_Poem)
           sample.encode_Poem sample.encode_Poems
           [(poem.POST_poem, sample.post sample.body_annabel)] (sample.world 26)
           "ABCDEFGHIJ" _ Hstored).
Defined.

(** X13 on the start-up store, both methods ranging in the order of
    [map_to_list]. *)
Lemma PoemsByAuthor_is_filter_of_All_witness :
  (∀ m : gmap string poem.Poem, map_to_list m ≡ₚ map_to_list m)
  ∧ length (poem.Store_PoemsByAuthor map_to_list poem.NewStore "Goethe")
    ≤ length (poem.Store_All map_to_list poem.NewStore).
Proof.
  split; [done|].
  exact (proj2 (proj2 (PoemsByAuthor_is_filter_of_All map_to_list map_to_list
                         poem.NewStore "Goethe"
                         (λ m, reflexivity _) (λ m, reflexivity _)))).
Defined.

(** X15 on the sample body: the created poem is listed under its author
    after a further request. *)
Lemma created_poem_is_listed_witness :
  (∀ m : gmap string poem.Poem, map_to_list m ≡ₚ map_to_list m)
  ∧ http.status
      (sample.serve poem.POST_poem (sample.post sample.body_annabel) (sample.world 26)).1
    = Some 201%Z
  ∧ http.status
      (sample.serve poem.GET_poems_author (sample.get "author" "Edgar Allan Poe")
         (poem.serve_all map_to_list (decoder := sample.decode_Poem)
            sample.encode_Poem sample.encode_Poems
            [(poem.GET_poems, sample.post "")]
            (sample.serve poem.POST_poem (sample.post sample.body_annabel)
               (sample.world 26)).2)).1
    = Some 200%Z.
Proof.
  split; [done|]. split; [reflexivity|].
  exact (proj2 (proj2
    (created_poem_is_listed map_to_list (decoder := sample.decode_Poem)
       sample.encode_Poem sample.encode_Poems (λ m, reflexivity _)
       (sample.post sample.body_annabel) (sample.world 26) sample.annabel
       [(poem.GET_poems, sample.post "")] (sample.get "author" "Edgar Allan Poe")
       eq_refl eq_refl eq_refl))).
Defined.

(** A business-logic function that succeeds with 204 No Content: the
    status line goes out, the encoded output is refused as body, and the
    refusal is reported as a failed encoding. *)
Example Handle_success_204 :
  http.status
    (sample_codes.successHandler 204 http.NewResponse (sample.post "") (sample.world 0)).1
  = Some 204%Z
  ∧ http.body
      (sample_codes.successHandler 204 http.NewResponse (sample.post "")
         (sample.world 0)).1 = ""
  ∧ http.superfluous
      (sample_codes.successHandler 204 http.NewResponse (sample.post "")
         (sample.world 0)).1 = [500%Z]
  ∧ poem.message <$> poem.logs
      (sample_codes.successHandler 204 http.NewResponse (sample.post "")
         (sample.world 0)).2
    = ["failed to encode response: http: request method or response status code does not allow body"].
Proof. split_and!; reflexivity. Qed.
